(** * nmigen-soc: the Wishbone to CSR bridge and the CSR multiplexer

    A shallow embedding of [nmigen_soc/csr/wishbone.py] (the class
    [WishboneCSRBridge]: its constructor and the synchronous logic built by
    [elaborate]) together with the address map and write path of the CSR
    multiplexer that the bridge drives.

    Signals are integers ([Z]) with their widths written out; a clock edge is
    a function from the registered state and the inputs sampled in that cycle
    to the next registered state; Python exceptions are the left summand of a
    sum type. *)

From Stdlib Require Import ZArith Lia List Bool String.
Import ListNotations.
Local Open Scope Z_scope.

(** ** Python exceptions and the error monad *)

Inductive PyError : Type :=
| ValueError (msg : string)
| NameError (name : string)
| UnboundLocalError (name : string).

Definition result (A : Type) : Type := (PyError + A)%type.

Definition raise {A : Type} (e : PyError) : result A := inl e.
Definition ret {A : Type} (a : A) : result A := inr a.

Definition bind {A B : Type} (m : result A) (k : A -> result B) : result B :=
  match m with
  | inl e => inl e
  | inr a => k a
  end.

Notation "x <- m ;; k" := (bind m (fun x => k))
  (at level 61, m at next level, right associativity).

Definition raises {A : Type} (m : result A) : bool :=
  match m with inl _ => true | inr _ => false end.

(** ** Bit vectors as integers *)

Module Bits.

(** The low [w] bits of [v]: what a [w]-bit signal holds after [v] is
    assigned to it. *)
Definition trunc (w v : Z) : Z := Z.land v (Z.ones w).

(** [v[lo : lo + w]]. *)
Definition get_slice (v lo w : Z) : Z := Z.land (Z.shiftr v lo) (Z.ones w).

(** [v[lo : lo + w].eq(x)]: the bits [lo .. lo + w - 1] of [v] are replaced
    by the low [w] bits of [x], the others stay. *)
Definition set_slice (v lo w x : Z) : Z :=
  Z.lor (Z.land v (Z.lnot (Z.shiftl (Z.ones w) lo)))
        (Z.shiftl (Z.land x (Z.ones w)) lo).

(** [Cat(a, b)] where [a] is [wa] bits wide and [b] is [wb] bits wide: [a]
    occupies the low bits. *)
Definition Cat (a wa b wb : Z) : Z :=
  Z.lor (trunc wa a) (Z.shiftl (trunc wb b) wa).

(** Python's [int.bit_length]. *)
Definition bit_length (n : Z) : Z :=
  if n =? 0 then 0 else Z.log2 (Z.abs n) + 1.

End Bits.

(** [nmigen.utils.log2_int] with its default [need_pow2=True]. *)
Definition log2_int (n : Z) : result Z :=
  if n =? 0 then ret 0
  else
    let r := Bits.bit_length (n - 1) in
    if negb (Z.shiftl 1 r =? n)
    then raise (ValueError "not a power of 2")
    else ret r.

(** ** Bus interfaces *)

(** The CSR (narrow) bus interface: the two attributes the bridge reads. *)
Record CSRInterface : Type := {
  csr_addr_width : Z;
  csr_data_width : Z
}.

(** The Wishbone (wide) bus interface.  [wb_stall] tells whether the
    interface object has a [stall] attribute ([hasattr(wb_bus, "stall")]). *)
Record WishboneInterface : Type := {
  wb_addr_width : Z;
  wb_data_width : Z;
  wb_granularity : Z;
  wb_stall : bool
}.

(** Modelled from the spec: the Wishbone interface class is not in the
    sources.  Its select signal is [sel[chunks]], one bit per chunk of
    [granularity] bits of the data word, so [len(wb_bus.sel)] is the wide
    data width over the granularity. *)
Definition sel_len (wb : WishboneInterface) : Z :=
  wb_data_width wb / wb_granularity wb.

(** What a caller may pass as [csr_bus]. *)
Inductive PyObject : Type :=
| CSRInterfaceObj (bus : CSRInterface)
| OtherObj.

Record WishboneCSRBridge : Type := {
  csr_bus : CSRInterface;
  wb_bus : WishboneInterface
}.

(** ** The constructor, [WishboneCSRBridge.__init__]

    The classes [WishboneInterface] and [MemoryMap] that the constructor
    instantiates live in other modules of the package.  Their own argument
    checks are parameters of the model: [wb_accepts addr_width data_width
    granularity] tells whether [WishboneInterface(...)] returns,
    [wb_default_stall] whether an interface built without [features] has a
    [stall] signal, and [map_accepts] whether building the memory map and
    adding the CSR window returns. *)

Record Collaborators : Type := {
  wb_accepts : Z -> Z -> Z -> bool;
  wb_default_stall : bool;
  map_accepts : CSRInterface -> bool
}.

Definition supported_width (w : Z) : bool :=
  (w =? 8) || (w =? 16) || (w =? 32) || (w =? 64).

Section Constructor.

Variable env : Collaborators.

Definition new_WishboneInterface (addr_width data_width granularity : Z)
  : result WishboneInterface :=
  if wb_accepts env addr_width data_width granularity
  then ret {| wb_addr_width := addr_width;
              wb_data_width := data_width;
              wb_granularity := granularity;
              wb_stall := wb_default_stall env |}
  else raise (ValueError "WishboneInterface").

Definition new_window (bus : CSRInterface) : result unit :=
  if map_accepts env bus then ret tt else raise (ValueError "MemoryMap").

Definition WishboneCSRBridge_init (csr_bus : PyObject) (data_width : option Z)
  : result WishboneCSRBridge :=
  match csr_bus with
  | OtherObj => raise (ValueError "CSR bus must be an instance of CSRInterface")
  | CSRInterfaceObj bus =>
    if negb (supported_width (csr_data_width bus))
    then raise (ValueError "CSR bus data width must be one of 8, 16, 32, 64")
    else
      let data_width :=
        match data_width with
        | None => csr_data_width bus
        | Some w => w
        end in
      l <- log2_int (data_width / csr_data_width bus) ;;
      wb <- new_WishboneInterface (Z.max 0 (csr_addr_width bus - l))
                                  data_width (csr_data_width bus) ;;
      _ <- new_window bus ;;
      ret {| csr_bus := bus; wb_bus := wb |}
  end.

End Constructor.

(** Collaborators that perform no checks of their own. *)
Definition unchecked : Collaborators :=
  {| wb_accepts := fun _ _ _ => true;
     wb_default_stall := false;
     map_accepts := fun _ => true |}.

(** ** The bridge logic, [WishboneCSRBridge.elaborate] *)

Module Bridge.

(** The constants fixed when [elaborate] runs. *)
Record Design : Type := {
  slen : Z;          (* len(wb_bus.sel) *)
  lbits : Z;         (* log2_int(slen) *)
  granularity : Z;   (* wb_bus.granularity *)
  addr_width : Z;    (* len(csr_bus.addr) *)
  adr_width : Z      (* len(wb_bus.adr) *)
}.

(** [Signal(range(slen + 1))] is [bits_for(slen)] bits wide. *)
Definition cycle_width (d : Design) : Z := Bits.bit_length (slen d).

(** The names bound in [elaborate] when the stall statement is reached:
    its arguments, the locals assigned before it, and the names that the
    module imports or defines. *)
Definition names_in_scope : list string :=
  [ "self"; "platform"; "csr_bus"; "wb_bus"; "m"; "comb"; "sync"; "slen";
    "cycle"; "is_in_progress";
    "log2_int"; "CSRInterface"; "WishboneInterface"; "MemoryMap";
    "WishboneCSRBridge";
    "Shape"; "unsigned"; "signed"; "Value"; "Const"; "C"; "Mux"; "Cat";
    "Repl"; "Array"; "Signal"; "ClockSignal"; "ResetSignal"; "Module";
    "ClockDomain"; "Elaboratable"; "Fragment"; "Instance"; "Memory";
    "Record"; "DomainRenamer"; "ResetInserter"; "EnableInserter" ]%string.

Definition lookup_name (name : string) : result unit :=
  if existsb (String.eqb name) names_in_scope
  then ret tt
  else raise (NameError name).

(** [elaborate]: the statements that can raise, in program order, and the
    constants of the logic it builds.  The [Default] branch of the switch
    reads [seg], which the loop over [wb_bus.sel] binds only if it runs at
    least once.  The length of [wb_bus.sel] is an integer here; Python's
    [len] returns it only below [2 ^ 63], and the statements about which
    bridges elaborate carry that bound. *)
Definition elaborate (self : WishboneCSRBridge) : result Design :=
  let n := sel_len (wb_bus self) in
  l <- log2_int n ;;
  _ <- (if wb_stall (wb_bus self) then lookup_name "ack" else ret tt) ;;
  _ <- (if n <=? 0 then raise (UnboundLocalError "seg") else ret tt) ;;
  ret {| slen := n;
         lbits := l;
         granularity := wb_granularity (wb_bus self);
         addr_width := csr_addr_width (csr_bus self);
         adr_width := wb_addr_width (wb_bus self) |}.

(** The registers of the bridge. *)
Record State : Type := {
  cycle : Z;
  ack : bool;
  dat_r : Z
}.

(** What the bridge samples in a cycle: the Wishbone request and the read
    data of the CSR bus. *)
Record Inputs : Type := {
  cyc : bool;
  stb : bool;
  we : bool;
  sel : Z;
  adr : Z;
  dat_w : Z;
  r_data : Z
}.

(** What the bridge drives combinationally on the CSR bus. *)
Record Outputs : Type := {
  addr : Z;
  r_stb : bool;
  w_stb : bool;
  w_data : Z
}.

Definition reset : State := {| cycle := 0; ack := false; dat_r := 0 |}.

Section Logic.

Variable d : Design.

Definition is_in_progress (s : State) : bool := negb (cycle s =? 0).

(** The condition of the outer [m.If]. *)
Definition active (s : State) (i : Inputs) : bool :=
  cyc i && (stb i || is_in_progress s).

(** The [m.Case(index)] selected by [m.Switch(cycle)], or [None] for
    [m.Default()]. *)
Definition case_index (s : State) : option Z :=
  if (0 <=? cycle s) && (cycle s <? slen d) then Some (cycle s) else None.

(** The low end of [segment(index)]; every segment is [granularity] bits
    wide. *)
Definition segment (index : Z) : Z := granularity d * index.

(** The combinational drivers of the CSR bus.  [w_data] is given as the
    whole segment of [dat_w], [granularity] bits wide; the constructor makes
    the granularity the CSR data width, so for a constructed bridge this is
    the width of [csr_bus.w_data]. *)
Definition comb (s : State) (i : Inputs) : Outputs :=
  let a := Bits.Cat (cycle s) (lbits d) (adr i) (adr_width d) in
  match (if active s i then case_index s else None) with
  | Some index =>
    {| addr := Bits.trunc (addr_width d) a;
       r_stb := Z.testbit (sel i) index && negb (we i);
       w_stb := Z.testbit (sel i) index && we i;
       w_data := Bits.get_slice (dat_w i) (segment index) (granularity d) |}
  | None =>
    {| addr := Bits.trunc (addr_width d) a;
       r_stb := false; w_stb := false; w_data := 0 |}
  end.

(** One clock edge.  The statements under [m.If(wb_bus.ack)] come last in
    the source, so they win over those of the switch. *)
Definition sync_step (s : State) (i : Inputs) : State :=
  let s1 :=
    if active s i then
      match case_index s with
      | Some index =>
        {| cycle := Bits.trunc (cycle_width d) (index + 1);
           ack := ack s;
           dat_r := if 0 <? index
                    then Bits.set_slice (dat_r s) (segment (index - 1))
                                        (granularity d) (r_data i)
                    else dat_r s |}
      | None =>
        {| cycle := cycle s;
           ack := true;
           dat_r := Bits.set_slice (dat_r s) (segment (slen d - 1))
                                   (granularity d) (r_data i) |}
      end
    else s in
  if ack s
  then {| cycle := 0; ack := false; dat_r := dat_r s1 |}
  else s1.

(** The registers after [n] clock edges, the inputs of cycle [t] being
    [ins t]. *)
Fixpoint run (ins : nat -> Inputs) (s : State) (n : nat) : State :=
  match n with
  | O => s
  | S n' => sync_step (run ins s n') (ins n')
  end.

End Logic.

End Bridge.

(** ** The CSR multiplexer

    The multiplexer class ([CSRMultiplexer], with [CSRElement]) is exercised by
    [test_csr_bus.py] but its module is not among the sources at hand; its
    address map and its write path are written down from the specification
    and checked against the scenarios of the test file. *)

Module Mux.

Inductive Access : Type := R | W | RW.

Definition writable (a : Access) : bool :=
  match a with R => false | W | RW => true end.

Record Element : Type := {
  width : Z;
  access : Access
}.

(** Modelled from the spec: the constructor of a register element, which
    is not in the sources.  The width must be non-negative. *)
Definition CSRElement (width : Z) (access : Access) : result Element :=
  if width <? 0
  then raise (ValueError "Width must be a non-negative integer")
  else ret {| width := width; access := access |}.

(** An element with the chunk range [add] gave it. *)
Record Placed : Type := {
  elem : Element;
  base : Z;
  size : Z
}.

Record Multiplexer : Type := {
  addr_width : Z;
  data_width : Z;
  alignment : Z;
  cursor : Z;
  elements : list Placed
}.

Definition create (addr_width data_width alignment : Z) : Multiplexer :=
  {| addr_width := addr_width; data_width := data_width;
     alignment := alignment; cursor := 0; elements := [] |}.

(** Modelled from the spec: the constructor of the multiplexer, which is
    not in the sources.  It fails for [addr_width <= 0], [data_width <= 0]
    or [alignment < 0]; the address map starts empty with its cursor at 0. *)
Definition CSRMultiplexer (addr_width data_width alignment : Z)
  : result Multiplexer :=
  if addr_width <=? 0
  then raise (ValueError "Address width must be a positive integer")
  else if data_width <=? 0
  then raise (ValueError "Data width must be a positive integer")
  else if alignment <? 0
  then raise (ValueError "Alignment must be a non-negative integer")
  else ret (create addr_width data_width alignment).

Definition ceil_div (a b : Z) : Z := (a + b - 1) / b.

(** [x] rounded up to the next multiple of [n]. *)
Definition round_up (x n : Z) : Z := ceil_div x n * n.

(** Modelled from the spec: [raw_chunks = ceil(element.width / chunk_width)],
    at least 1 chunk even for width 0. *)
Definition raw_chunks (m : Multiplexer) (e : Element) : Z :=
  Z.max 1 (ceil_div (width e) (data_width m)).

(** Modelled from the spec: [align_to(n)], not in the sources, advances the
    cursor to the next multiple of [2^n] and returns it. *)
Definition align_to (m : Multiplexer) (n : Z) : Multiplexer * Z :=
  let c := round_up (cursor m) (2 ^ n) in
  ({| addr_width := addr_width m; data_width := data_width m;
      alignment := alignment m; cursor := c; elements := elements m |}, c).

(** Modelled from the spec: [add(element)], not in the sources.
    [base_offset = round_up(cursor, 2^A)],
    [chunk_count = round_up(raw_chunks, 2^A)], the cursor moves to
    [base_offset + chunk_count], and [(base_offset, chunk_count)] is
    returned. *)
Definition add (m : Multiplexer) (e : Element) : Multiplexer * (Z * Z) :=
  let base_offset := round_up (cursor m) (2 ^ alignment m) in
  let chunk_count := round_up (raw_chunks m e) (2 ^ alignment m) in
  ({| addr_width := addr_width m; data_width := data_width m;
      alignment := alignment m;
      cursor := base_offset + chunk_count;
      elements := elements m ++
                  [{| elem := e; base := base_offset; size := chunk_count |}] |},
   (base_offset, chunk_count)).

(** A sequence of [add] calls and what each returns. *)
Fixpoint add_all (m : Multiplexer) (es : list Element)
  : Multiplexer * list (Z * Z) :=
  match es with
  | [] => (m, [])
  | e :: es' =>
    let (m1, r) := add m e in
    let (m2, rs) := add_all m1 es' in
    (m2, r :: rs)
  end.

(** The multiplexers that construction and registration can produce. *)
Inductive built : Multiplexer -> Prop :=
| built_create aw dw al :
    0 < aw -> 0 < dw -> 0 <= al -> built (create aw dw al)
| built_add m e :
    built m -> 0 <= width e -> built (fst (add m e))
| built_align_to m n :
    built m -> 0 <= n -> built (fst (align_to m n)).

(** The registers of the write path: the write accumulator and one write
    strobe per element. *)
Record State : Type := {
  w_shadow : Z;
  w_stb_regs : list bool
}.

Record Inputs : Type := {
  addr : Z;
  r_stb : bool;
  w_stb : bool;
  w_data : Z
}.

(** The accumulator is as wide as the widest registered element. *)
Definition shadow_width (m : Multiplexer) : Z :=
  fold_right Z.max 0 (map (fun p => width (elem p)) (elements m)).

(** Address decoding: the index of the element whose range holds [a], and
    the chunk index of [a] in it. *)
Fixpoint decode (ps : list Placed) (a : Z) : option (nat * Z) :=
  match ps with
  | [] => None
  | p :: ps' =>
    if (base p <=? a) && (a <? base p + size p)
    then Some (O, a - base p)
    else match decode ps' a with
         | Some (j, k) => Some (S j, k)
         | None => None
         end
  end.

(** The write that the inputs of this cycle address: the element index, the
    element and the chunk index. *)
Definition selected_write (m : Multiplexer) (i : Inputs)
  : option (nat * Placed * Z) :=
  if w_stb i then
    match decode (elements m) (addr i) with
    | Some (j, k) =>
      match nth_error (elements m) j with
      | Some p => if writable (access (elem p)) then Some (j, p, k) else None
      | None => None
      end
    | None => None
    end
  else None.

(** Modelled from the spec: the write protocol of the multiplexer, whose
    [elaborate] is not in the sources.  The chunk written in this cycle is
    deposited in the accumulator at bit offset [i * chunk_width]; the write
    strobe of an element is registered high exactly when its last chunk is
    written in this cycle. *)
Definition sync_step (m : Multiplexer) (s : State) (i : Inputs) : State :=
  match selected_write m i with
  | Some (j, p, k) =>
    {| w_shadow :=
         Bits.trunc (shadow_width m)
           (Bits.set_slice (w_shadow s) (k * data_width m) (data_width m)
                           (w_data i));
       w_stb_regs :=
         map (fun j' => (j' =? j)%nat && (k =? size p - 1))
             (seq 0 (List.length (elements m))) |}
  | None =>
    {| w_shadow := w_shadow s;
       w_stb_regs := map (fun _ => false) (seq 0 (List.length (elements m))) |}
  end.

(** What element [j] sees: its [w_stb] and its [w_data]. *)
Definition elem_w_stb (s : State) (j : nat) : bool :=
  nth j (w_stb_regs s) false.

Definition elem_w_data (m : Multiplexer) (s : State) (j : nat) : Z :=
  match nth_error (elements m) j with
  | Some p => Bits.trunc (width (elem p)) (w_shadow s)
  | None => 0
  end.

Fixpoint run (m : Multiplexer) (ins : nat -> Inputs) (s : State) (n : nat)
  : State :=
  match n with
  | O => s
  | S n' => sync_step m (run m ins s n') (ins n')
  end.

(** The value of the chunks [d 0 .. d (n - 1)], chunk 0 in the low bits. *)
Fixpoint assemble (dw : Z) (d : nat -> Z) (n : nat) : Z :=
  match n with
  | O => 0
  | S n' => Z.lor (assemble dw d n')
                  (Z.shiftl (Bits.trunc dw (d n')) (Z.of_nat n' * dw))
  end.

(** A write of [x] to chunk address [a]. *)
Definition write (a x : Z) : Inputs :=
  {| addr := a; r_stb := false; w_stb := true; w_data := x |}.

Definition idle (a : Z) : Inputs :=
  {| addr := a; r_stb := false; w_stb := false; w_data := 0 |}.

Definition reset (m : Multiplexer) : State :=
  {| w_shadow := 0;
     w_stb_regs := map (fun _ => false) (seq 0 (List.length (elements m))) |}.

End Mux.

(** ** Vocabulary of the statements *)

(** [wide] is [narrow] times a power of two. *)
Definition pow2_multiple (wide narrow : Z) : Prop :=
  exists k, 0 <= k /\ wide = narrow * 2 ^ k.

Definition is_pow2 (n : Z) : Prop := exists k, 0 <= k /\ n = 2 ^ k.

(** The data width the constructor works with. *)
Definition effective_width (bus : CSRInterface) (data_width : option Z) : Z :=
  match data_width with
  | None => csr_data_width bus
  | Some w => w
  end.

(** The CSR address is the chunk index below the Wishbone address. *)
Definition address_is_concatenation
  (d : Bridge.Design) (s : Bridge.State) (i : Bridge.Inputs) : Prop :=
  Bridge.addr (Bridge.comb d s i) =
  Bits.Cat (Bridge.cycle s) (Bridge.lbits d) (Bridge.adr i) (Bridge.adr_width d).

(** A Wishbone request that holds [cyc] and [stb] with constant controls. *)
Definition request (we : bool) (sel adr dat_w r_data : Z) : Bridge.Inputs :=
  {| Bridge.cyc := true; Bridge.stb := true; Bridge.we := we;
     Bridge.sel := sel; Bridge.adr := adr; Bridge.dat_w := dat_w;
     Bridge.r_data := r_data |}.

(** ** Sample configurations *)

(** An 8-bit CSR bus with 16 address bits behind a 32-bit Wishbone bus. *)
Definition bridge_8_32 : WishboneCSRBridge :=
  {| csr_bus := {| csr_addr_width := 16; csr_data_width := 8 |};
     wb_bus := {| wb_addr_width := 14; wb_data_width := 32;
                  wb_granularity := 8; wb_stall := false |} |}.

Definition design_8_32 : Bridge.Design :=
  {| Bridge.slen := 4; Bridge.lbits := 2; Bridge.granularity := 8;
     Bridge.addr_width := 16; Bridge.adr_width := 14 |}.

(** An 8-bit CSR bus with a single address bit behind a 32-bit Wishbone
    bus: the Wishbone address is 0 bits wide. *)
Definition bridge_narrow : WishboneCSRBridge :=
  {| csr_bus := {| csr_addr_width := 1; csr_data_width := 8 |};
     wb_bus := {| wb_addr_width := 0; wb_data_width := 32;
                  wb_granularity := 8; wb_stall := false |} |}.

Definition design_narrow : Bridge.Design :=
  {| Bridge.slen := 4; Bridge.lbits := 2; Bridge.granularity := 8;
     Bridge.addr_width := 1; Bridge.adr_width := 0 |}.

(** A read of all four chunks at Wishbone address 3; the CSR bus returns
    [0x10 + t] in cycle [t]. *)
Definition read_all (t : nat) : Bridge.Inputs :=
  request false 15 3 0 (16 + Z.of_nat t).

(** The multiplexer of the simulation test with its three elements. *)
Definition dut : Mux.Multiplexer :=
  let m0 := Mux.create 16 8 0 in
  let m1 := fst (Mux.add m0 {| Mux.width := 4; Mux.access := Mux.R |}) in
  let m2 := fst (Mux.add m1 {| Mux.width := 8; Mux.access := Mux.W |}) in
  fst (Mux.add m2 {| Mux.width := 16; Mux.access := Mux.RW |}).

(** The pipelined write of the simulation test: 0x55 to chunk address 2,
    then 0xaa to chunk address 3, then no request. *)
Definition write_16 (t : nat) : Mux.Inputs :=
  match t with
  | O => Mux.write 2 85
  | S O => Mux.write 3 170
  | _ => Mux.idle 3
  end.

(** ** Invariants of the address map *)

(** The chunk counts of a list of [add] results, summed. *)
Definition chunk_sum (rs : list (Z * Z)) : Z :=
  fold_right (fun r acc => snd r + acc) 0 rs.

(** The ranges of [ps] lie in order at or after chunk [c], each with at least
    one chunk. *)
Fixpoint placed_from (c : Z) (ps : list Mux.Placed) : Prop :=
  match ps with
  | [] => True
  | p :: ps' =>
    c <= Mux.base p /\ 0 < Mux.size p /\
    placed_from (Mux.base p + Mux.size p) ps'
  end.

(** The end of the last range of [ps], or [c] if there is none. *)
Fixpoint end_of (c : Z) (ps : list Mux.Placed) : Z :=
  match ps with
  | [] => c
  | p :: ps' => end_of (Mux.base p + Mux.size p) ps'
  end.

(** The chunks of [p] hold all the bits of its element. *)
Definition fits (dw : Z) (p : Mux.Placed) : Prop :=
  0 <= Mux.width (Mux.elem p) <= Mux.size p * dw.

Definition well_placed (m : Mux.Multiplexer) : Prop :=
  0 < Mux.data_width m /\ 0 <= Mux.alignment m /\
  placed_from 0 (Mux.elements m) /\
  end_of 0 (Mux.elements m) <= Mux.cursor m /\
  Forall (fits (Mux.data_width m)) (Mux.elements m).

(** ** Vocabulary of the further properties of the bridge *)

(** The counter is within [0, slen], and [ack] is only high at the end of
    the count. *)
Definition in_range (d : Bridge.Design) (s : Bridge.State) : Prop :=
  0 <= Bridge.cycle s <= Bridge.slen d /\
  (Bridge.ack s = true -> Bridge.cycle s = Bridge.slen d).

(** The number of cycles before [t] in which [cyc] was high. *)
Fixpoint count_cyc (ins : nat -> Bridge.Inputs) (t : nat) : nat :=
  match t with
  | O => O
  | S t' => ((if Bridge.cyc (ins t') then 1 else 0) + count_cyc ins t')%nat
  end.

(** A write of the word [0x44332211] to the chunks 0 and 2 at Wishbone
    address 3. *)
Definition write_some (t : nat) : Bridge.Inputs :=
  request true 5 3 0x44332211 0.

(** A request during which the CSR bus returns, in each cycle, the chunk
    that the bridge drove on [w_data] in the cycle before. *)
Definition echo_all (t : nat) : Bridge.Inputs :=
  request true 15 0 0x44332211
          (Bits.get_slice 0x44332211 (8 * (Z.of_nat t - 1)) 8).

(** A read during which [cyc] drops in the cycles 1 and 3. *)
Definition read_gapped (t : nat) : Bridge.Inputs :=
  {| Bridge.cyc := negb ((t =? 1)%nat || (t =? 3)%nat);
     Bridge.stb := true; Bridge.we := false; Bridge.sel := 15;
     Bridge.adr := 3; Bridge.dat_w := 0; Bridge.r_data := 16 + Z.of_nat t |}.

(** An 8-bit CSR bus bridged at its own width. *)
Definition bridge_8_8 : WishboneCSRBridge :=
  {| csr_bus := {| csr_addr_width := 16; csr_data_width := 8 |};
     wb_bus := {| wb_addr_width := 16; wb_data_width := 8;
                  wb_granularity := 8; wb_stall := false |} |}.

Definition design_8_8 : Bridge.Design :=
  {| Bridge.slen := 1; Bridge.lbits := 0; Bridge.granularity := 8;
     Bridge.addr_width := 16; Bridge.adr_width := 16 |}.

(** ** Vocabulary of the revised statements *)

(** The supported data widths. *)
Definition supported_set : list Z := [8; 16; 32; 64].

(** Modelled from the spec: the argument checks of the Wishbone interface
    class and of the memory map, which are not in the sources.  An invalid
    configuration is a negative address width, a data width not in the
    supported set, or a wide bus width that is not an integer multiple of
    the narrow width (the granularity); the memory map is pure bookkeeping
    and rejects nothing; the stall signal is optional and absent from an
    interface built without features. *)
Definition checked : Collaborators :=
  {| wb_accepts := fun addr_width data_width granularity =>
       (0 <=? addr_width) && supported_width data_width &&
       (data_width mod granularity =? 0);
     wb_default_stall := false;
     map_accepts := fun _ => true |}.

(** The constructor rejects exactly the CSR data widths outside the
    supported set and the wide widths that are not a power-of-two multiple
    of the narrow one. *)
Definition rejects_as_claimed
  (env : Collaborators) (bus : CSRInterface) (data_width : option Z) : Prop :=
  raises (WishboneCSRBridge_init env (CSRInterfaceObj bus) data_width) = true <->
  (~ In (csr_data_width bus) supported_set \/
   ~ pow2_multiple (effective_width bus data_width) (csr_data_width bus)).

(** The 16-bit write of the simulation test with two idle cycles between the
    chunks: 0x55 to chunk address 2 in cycle 0, 0xaa to chunk address 3 in
    cycle 3. *)
Definition write_16_gapped (t : nat) : Mux.Inputs :=
  match t with
  | O => Mux.write 2 85
  | 3%nat => Mux.write 3 170
  | _ => Mux.idle 3
  end.

(** The cycles in which the chunks of [write_16_gapped] are written. *)
Definition gapped_times (k : nat) : nat :=
  match k with
  | O => 0%nat
  | _ => 3%nat
  end.

(** * Properties *)

(** ** Bits of slices and concatenations *)

Module BitsFacts.
Import Bits.

Lemma testbit_trunc (w v b : Z) :
  0 <= w -> 0 <= b ->
  Z.testbit (trunc w v) b = Z.testbit v b && (b <? w).
Proof.
  intros Hw Hb. unfold trunc.
  rewrite Z.land_spec, Z.testbit_ones_nonneg by lia. reflexivity.
Qed.

Lemma trunc_mod (w v : Z) : 0 <= w -> trunc w v = v mod 2 ^ w.
Proof. intros Hw. unfold trunc. apply Z.land_ones, Hw. Qed.

Lemma trunc_small (w v : Z) : 0 <= w -> 0 <= v < 2 ^ w -> trunc w v = v.
Proof. intros Hw Hv. rewrite trunc_mod by lia. apply Z.mod_small, Hv. Qed.

Lemma trunc_idem (w v : Z) : 0 <= w -> trunc w (trunc w v) = trunc w v.
Proof.
  intros Hw. apply Z.bits_inj'. intros b Hb.
  rewrite !testbit_trunc by lia. now rewrite <- andb_assoc, andb_diag.
Qed.

Lemma testbit_get_slice (v lo w b : Z) :
  0 <= w -> 0 <= b ->
  Z.testbit (get_slice v lo w) b = Z.testbit v (b + lo) && (b <? w).
Proof.
  intros Hw Hb. unfold get_slice.
  rewrite Z.land_spec, Z.shiftr_spec, Z.testbit_ones_nonneg by lia.
  reflexivity.
Qed.

Lemma testbit_set_slice (v lo w x b : Z) :
  0 <= lo -> 0 <= w -> 0 <= b ->
  Z.testbit (set_slice v lo w x) b =
  if (lo <=? b) && (b <? lo + w) then Z.testbit x (b - lo) else Z.testbit v b.
Proof.
  intros Hlo Hw Hb. unfold set_slice.
  rewrite Z.lor_spec, Z.land_spec, Z.lnot_spec by lia.
  rewrite !Z.shiftl_spec by lia.
  rewrite Z.land_spec, Z.testbit_ones by lia.
  destruct (Z.leb_spec lo b) as [Hle | Hlt]; cbn [andb].
  - destruct (Z.ltb_spec b (lo + w)) as [Hin | Hout].
    + replace (0 <=? b - lo) with true by (symmetry; apply Z.leb_le; lia).
      replace (b - lo <? w) with true by (symmetry; apply Z.ltb_lt; lia).
      cbn. now rewrite andb_false_r, andb_true_r.
    + replace (b - lo <? w) with false by (symmetry; apply Z.ltb_ge; lia).
      now rewrite !andb_false_r, andb_true_r, orb_false_r.
  - replace (0 <=? b - lo) with false by (symmetry; apply Z.leb_gt; lia).
    cbn. now rewrite andb_false_r, andb_true_r, orb_false_r.
Qed.

(** Reading back the slice that was just written. *)
Lemma get_set_same (v lo w x : Z) :
  0 <= lo -> 0 <= w ->
  get_slice (set_slice v lo w x) lo w = trunc w x.
Proof.
  intros Hlo Hw. apply Z.bits_inj'. intros b Hb.
  rewrite testbit_get_slice, testbit_set_slice, testbit_trunc by lia.
  destruct (Z.ltb_spec b w) as [Hin | Hout].
  - replace (lo <=? b + lo) with true by (symmetry; apply Z.leb_le; lia).
    replace (b + lo <? lo + w) with true by (symmetry; apply Z.ltb_lt; lia).
    cbn. now replace (b + lo - lo) with b by lia.
  - now rewrite !andb_false_r.
Qed.

(** Writing one slice leaves a disjoint slice as it was. *)
Lemma get_set_other (v lo lo' w x : Z) :
  0 <= lo -> 0 <= lo' -> 0 <= w ->
  lo' + w <= lo \/ lo + w <= lo' ->
  get_slice (set_slice v lo' w x) lo w = get_slice v lo w.
Proof.
  intros Hlo Hlo' Hw Hdis. apply Z.bits_inj'. intros b Hb.
  rewrite !testbit_get_slice, testbit_set_slice by lia.
  destruct (Z.ltb_spec b w) as [Hin | Hout].
  - replace ((lo' <=? b + lo) && (b + lo <? lo' + w)) with false; [easy|].
    symmetry. apply andb_false_iff.
    destruct Hdis; [right; apply Z.ltb_ge | left; apply Z.leb_gt]; lia.
  - now rewrite !andb_false_r.
Qed.

Lemma testbit_Cat (a wa b wb n : Z) :
  0 <= wa -> 0 <= wb -> 0 <= n ->
  Z.testbit (Cat a wa b wb) n =
  if n <? wa then Z.testbit a n
  else Z.testbit b (n - wa) && (n - wa <? wb).
Proof.
  intros Hwa Hwb Hn. unfold Cat.
  rewrite Z.lor_spec, Z.shiftl_spec, testbit_trunc by lia.
  destruct (Z.ltb_spec n wa) as [Hlow | Hhigh].
  - rewrite (Z.testbit_neg_r _ (n - wa)) by lia.
    now rewrite andb_true_r, orb_false_r.
  - rewrite testbit_trunc by lia. now rewrite andb_false_r.
Qed.

(** The value of a concatenation. *)
Lemma Cat_value (a wa b wb : Z) :
  0 <= wa -> 0 <= wb ->
  Cat a wa b wb = a mod 2 ^ wa + 2 ^ wa * (b mod 2 ^ wb).
Proof.
  intros Hwa Hwb. unfold Cat.
  assert (Hdis : Z.land (trunc wa a) (Z.shiftl (trunc wb b) wa) = 0).
  { apply Z.bits_inj'. intros n Hn.
    rewrite Z.land_spec, Z.bits_0, testbit_trunc, Z.shiftl_spec by lia.
    destruct (Z.ltb_spec n wa).
    - rewrite (Z.testbit_neg_r _ (n - wa)) by lia. apply andb_false_r.
    - now rewrite andb_false_r. }
  rewrite <- Z.lxor_lor, <- Z.add_nocarry_lxor by exact Hdis.
  rewrite !trunc_mod, Z.shiftl_mul_pow2 by lia. ring.
Qed.

Lemma bit_length_bound (n v : Z) :
  0 <= v <= n -> v < 2 ^ bit_length n.
Proof.
  intros Hv. unfold bit_length.
  destruct (Z.eqb_spec n 0) as [-> | Hn]; [cbn; lia|].
  rewrite Z.abs_eq by lia.
  pose proof (Z.log2_spec n ltac:(lia)) as [_ Hup].
  unfold Z.succ in Hup. lia.
Qed.

End BitsFacts.

(** ** The constructor *)

Lemma log2_int_inv (n l : Z) :
  log2_int n = inr l ->
  0 <= l /\ (n = 0 /\ l = 0 \/ n = 2 ^ l).
Proof.
  unfold log2_int, raise, ret.
  destruct (Z.eqb_spec n 0) as [-> | Hn].
  - intros [= <-]. lia.
  - destruct (Z.eqb_spec (Z.shiftl 1 (Bits.bit_length (n - 1))) n) as [He | He];
      cbn [negb]; [|discriminate].
    intros [= <-]. rewrite Z.shiftl_1_l in He. split; [|now right].
    unfold Bits.bit_length. destruct (n - 1 =? 0); [lia|].
    pose proof (Z.log2_nonneg (Z.abs (n - 1))). lia.
Qed.

Lemma log2_int_pow2 (k : Z) : 0 <= k -> log2_int (2 ^ k) = inr k.
Proof.
  intros Hk. unfold log2_int, ret.
  assert (Hpos : 0 < 2 ^ k) by (apply Z.pow_pos_nonneg; lia).
  destruct (Z.eqb_spec (2 ^ k) 0) as [H0 | _]; [lia|].
  assert (Hlen : Bits.bit_length (2 ^ k - 1) = k).
  { unfold Bits.bit_length.
    destruct (Z.eqb_spec (2 ^ k - 1) 0) as [H1 | H1].
    - destruct (Z.eq_dec k 0) as [-> | Hk0]; [reflexivity|].
      assert (2 ^ 1 <= 2 ^ k) by (apply Z.pow_le_mono_r; lia).
      change (2 ^ 1) with 2 in *. lia.
    - rewrite Z.abs_eq by lia.
      assert (Hk1 : 0 < k).
      { destruct (Z.eq_dec k 0) as [-> | ?]; [cbn in H1; lia | lia]. }
      rewrite (Z.log2_unique (2 ^ k - 1) (k - 1)); [lia | lia |].
      replace (Z.succ (k - 1)) with k by lia.
      replace (2 ^ k) with (2 * 2 ^ (k - 1)).
      + assert (0 < 2 ^ (k - 1)) by (apply Z.pow_pos_nonneg; lia). lia.
      + rewrite <- Z.pow_succ_r by lia. f_equal. lia. }
  rewrite Hlen, Z.shiftl_1_l, Z.eqb_refl. reflexivity.
Qed.

(** [log2_int] raises exactly on the non-zero integers that are not a power
    of two. *)
Lemma log2_int_raises (n : Z) :
  raises (log2_int n) = true <-> n <> 0 /\ ~ is_pow2 n.
Proof.
  split.
  - intros Hr. split.
    + intros ->. discriminate Hr.
    + intros (k & Hk & ->). rewrite log2_int_pow2 in Hr by lia. discriminate.
  - intros [Hn Hp]. destruct (log2_int n) as [e | l] eqn:E; [reflexivity|].
    exfalso. apply log2_int_inv in E as [Hl [[-> _] | ->]]; [lia|].
    apply Hp. now exists l.
Qed.

Lemma log2_int_log2 (n l : Z) : log2_int n = inr l -> l = Z.log2 n.
Proof.
  intros E. apply log2_int_inv in E as [Hl [[-> ->] | ->]]; [reflexivity|].
  now rewrite Z.log2_pow2.
Qed.

Lemma supported_width_pos (w : Z) : supported_width w = true -> 0 < w.
Proof.
  unfold supported_width. rewrite !orb_true_iff, !Z.eqb_eq. lia.
Qed.

(** What a successful construction went through. *)
Lemma init_inv (env : Collaborators) (obj : PyObject) (dw : option Z)
      (self : WishboneCSRBridge) :
  WishboneCSRBridge_init env obj dw = inr self ->
  exists bus l,
    obj = CSRInterfaceObj bus /\
    supported_width (csr_data_width bus) = true /\
    log2_int (effective_width bus dw / csr_data_width bus) = inr l /\
    wb_accepts env (Z.max 0 (csr_addr_width bus - l))
               (effective_width bus dw) (csr_data_width bus) = true /\
    map_accepts env bus = true /\
    self = {| csr_bus := bus;
              wb_bus := {| wb_addr_width := Z.max 0 (csr_addr_width bus - l);
                           wb_data_width := effective_width bus dw;
                           wb_granularity := csr_data_width bus;
                           wb_stall := wb_default_stall env |} |}.
Proof.
  unfold WishboneCSRBridge_init.
  destruct obj as [bus|]; [|discriminate].
  destruct (supported_width (csr_data_width bus)) eqn:Hs; cbn [negb];
    [|discriminate].
  fold (effective_width bus dw).
  destruct (log2_int (effective_width bus dw / csr_data_width bus))
    as [e | l] eqn:Hl; cbn [bind]; [discriminate|].
  unfold new_WishboneInterface, new_window.
  destruct (wb_accepts env _ _ _) eqn:Hw; cbn [bind raise ret]; [|discriminate].
  destruct (map_accepts env bus) eqn:Hm; cbn [bind raise ret]; [|discriminate].
  intros [= <-]. exists bus, l. repeat split; assumption.
Qed.

(** C7.  Address-width relationship: every bridge the constructor returns has
    a Wishbone address width of [max(0, narrow_addr_width - log2(chunks))],
    where [chunks] is the wide data width divided by the narrow one (a power
    of two whenever it is not zero, so that the logarithm is exact), and a
    granularity equal to the CSR data width. *)
Theorem wb_bus_shape (env : Collaborators) (obj : PyObject) (dw : option Z)
        (self : WishboneCSRBridge) :
  WishboneCSRBridge_init env obj dw = inr self ->
  let chunks := wb_data_width (wb_bus self) / csr_data_width (csr_bus self) in
  wb_addr_width (wb_bus self) =
    Z.max 0 (csr_addr_width (csr_bus self) - Z.log2 chunks) /\
  wb_granularity (wb_bus self) = csr_data_width (csr_bus self) /\
  (chunks = 0 \/ chunks = 2 ^ Z.log2 chunks).
Proof.
  intros Hinit.
  apply init_inv in Hinit as (bus & l & _ & _ & Hl & _ & _ & ->).
  cbn. rewrite <- (log2_int_log2 _ _ Hl).
  apply log2_int_inv in Hl as [_ [[H0 _] | Hp]]; auto.
Qed.

Lemma wb_bus_shape_witness :
  let self :=
    {| csr_bus := {| csr_addr_width := 10; csr_data_width := 8 |};
       wb_bus := {| wb_addr_width := 8; wb_data_width := 32;
                    wb_granularity := 8; wb_stall := false |} |} in
  wb_addr_width (wb_bus self) = Z.max 0 (10 - Z.log2 (32 / 8)) /\
  wb_granularity (wb_bus self) = 8 /\
  (32 / 8 = 0 \/ 32 / 8 = 2 ^ Z.log2 (32 / 8)).
Proof.
  exact (wb_bus_shape unchecked
           (CSRInterfaceObj {| csr_addr_width := 10; csr_data_width := 8 |})
           (Some 32) _ eq_refl).
Defined.

(** The outcomes of the constructor whatever the interface classes accept:
    it raises exactly when the CSR bus is not a CSR interface, or its data
    width is not one of 8, 16, 32, 64, or the floored quotient of the wide by
    the narrow data width is neither zero nor a power of two, or one of the
    classes it instantiates rejects its arguments; an omitted [data_width]
    stands for the CSR data width; and a bridge that is returned has the
    given CSR bus and the effective data width. *)
Lemma init_raises_iff (env : Collaborators) (bus : CSRInterface)
        (dw : option Z) :
  (raises (WishboneCSRBridge_init env OtherObj dw) = true) /\
  (raises (WishboneCSRBridge_init env (CSRInterfaceObj bus) dw) = true <->
   supported_width (csr_data_width bus) = false \/
   (let q := effective_width bus dw / csr_data_width bus in
    (q <> 0 /\ ~ is_pow2 q) \/
    wb_accepts env (Z.max 0 (csr_addr_width bus - Z.log2 q))
               (effective_width bus dw) (csr_data_width bus) = false \/
    map_accepts env bus = false)) /\
  WishboneCSRBridge_init env (CSRInterfaceObj bus) None =
    WishboneCSRBridge_init env (CSRInterfaceObj bus)
                           (Some (csr_data_width bus)) /\
  match WishboneCSRBridge_init env (CSRInterfaceObj bus) dw with
  | inr self =>
    csr_bus self = bus /\ wb_data_width (wb_bus self) = effective_width bus dw
  | inl _ => True
  end.
Proof.
  split; [reflexivity|]. split; [|split; [reflexivity|]].
  - unfold WishboneCSRBridge_init. fold (effective_width bus dw).
    destruct (supported_width (csr_data_width bus)) eqn:Hs; cbn [negb];
      [|cbn; tauto].
    cbv zeta.
    destruct (log2_int (effective_width bus dw / csr_data_width bus))
      as [e | l] eqn:Hl; cbn [bind].
    + assert (Hr : raises (log2_int (effective_width bus dw / csr_data_width bus))
                   = true) by now rewrite Hl.
      apply log2_int_raises in Hr. cbn. tauto.
    + assert (Hnr : ~ (effective_width bus dw / csr_data_width bus <> 0 /\
                       ~ is_pow2 (effective_width bus dw / csr_data_width bus))).
      { intros H. apply log2_int_raises in H. rewrite Hl in H. discriminate. }
      rewrite <- (log2_int_log2 _ _ Hl).
      unfold new_WishboneInterface, new_window.
      destruct (wb_accepts env _ _ _) eqn:Hw; cbn [bind raise ret];
        [|cbn; tauto].
      destruct (map_accepts env bus) eqn:Hm; cbn [bind raise ret]; cbn;
        [|tauto].
      split; [discriminate|].
      intros [H | [H | [H | H]]]; try discriminate. tauto.
  - destruct (WishboneCSRBridge_init env (CSRInterfaceObj bus) dw)
      as [e | self] eqn:E; [exact I|].
    apply init_inv in E as (bus' & l & [= <-] & _ & _ & _ & _ & ->).
    now cbn.
Qed.

(** The claim of C9 as it is written fails: a wide data width of 128 over a
    CSR data width of 8 is a power-of-two multiple of it, yet the
    constructor raises, because the Wishbone interface it builds accepts no
    data width outside 8, 16, 32, 64. *)
Lemma init_rejects_128_over_8 :
  ~ rejects_as_claimed checked
      {| csr_addr_width := 16; csr_data_width := 8 |} (Some 128).
Proof.
  unfold rejects_as_claimed. cbn. intros [H _].
  destruct (H eq_refl) as [Hset | Hmul].
  - apply Hset. now left.
  - apply Hmul. exists 4. split; [lia | reflexivity].
Qed.

Lemma supported_width_In (w : Z) :
  supported_width w = true <-> In w supported_set.
Proof.
  unfold supported_width, supported_set. cbn [In].
  rewrite !orb_true_iff, !Z.eqb_eq. intuition auto.
Qed.

(** Two supported widths: either the wide one is a power-of-two multiple of
    the narrow one, or it is smaller. *)
Lemma supported_pair (narrow wide : Z) :
  In narrow supported_set -> In wide supported_set ->
  (pow2_multiple wide narrow /\ is_pow2 (wide / narrow) /\
   wide mod narrow = 0) \/
  (wide < narrow /\ wide / narrow = 0 /\ wide mod narrow <> 0).
Proof.
  unfold supported_set. cbn [In].
  intros [<- | [<- | [<- | [<- | []]]]] [<- | [<- | [<- | [<- | []]]]];
    first
      [ right; split; [lia | split; [reflexivity | cbn; lia]]
      | left; split; [|split; [|reflexivity]];
        first [ exists 0; split; [lia | reflexivity]
              | exists 1; split; [lia | reflexivity]
              | exists 2; split; [lia | reflexivity]
              | exists 3; split; [lia | reflexivity] ] ].
Qed.

Lemma pow2_multiple_ge (wide narrow : Z) :
  0 < narrow -> pow2_multiple wide narrow -> narrow <= wide.
Proof.
  intros Hn (k & Hk & ->).
  assert (0 < 2 ^ k) by (apply Z.pow_pos_nonneg; lia). nia.
Qed.

(** C9, amended.  The constructor raises exactly when the CSR data width is
    not one of 8, 16, 32, 64, or the wide data width is not one of them
    either, or the wide data width is not a power-of-two multiple of the
    narrow one; otherwise it returns a bridge on the given CSR bus with the
    wide data width; an omitted [data_width] stands for the CSR data
    width. *)
Theorem init_raises_exactly (bus : CSRInterface) (dw : option Z) :
  (raises (WishboneCSRBridge_init checked (CSRInterfaceObj bus) dw) = true <->
   ~ In (csr_data_width bus) supported_set \/
   ~ In (effective_width bus dw) supported_set \/
   ~ pow2_multiple (effective_width bus dw) (csr_data_width bus)) /\
  WishboneCSRBridge_init checked (CSRInterfaceObj bus) None =
    WishboneCSRBridge_init checked (CSRInterfaceObj bus)
                           (Some (csr_data_width bus)) /\
  match WishboneCSRBridge_init checked (CSRInterfaceObj bus) dw with
  | inr self =>
    csr_bus self = bus /\ wb_data_width (wb_bus self) = effective_width bus dw
  | inl _ => True
  end.
Proof.
  destruct (init_raises_iff checked bus dw) as (_ & Hiff & Hdef & Hok).
  split; [|split; [exact Hdef | exact Hok]].
  rewrite Hiff. clear Hiff Hdef Hok. cbv zeta.
  cbn [checked wb_accepts map_accepts].
  set (narrow := csr_data_width bus). set (wide := effective_width bus dw).
  assert (Haw : forall l, (0 <=? Z.max 0 (csr_addr_width bus - l)) = true)
    by (intros l; apply Z.leb_le; lia).
  rewrite Haw. cbn [andb].
  destruct (supported_width narrow) eqn:Hn.
  - pose proof (proj1 (supported_width_In narrow) Hn) as Hin.
    pose proof (supported_width_pos narrow Hn) as Hpos.
    destruct (supported_width wide) eqn:Hwd.
    + pose proof (proj1 (supported_width_In wide) Hwd) as Hiw.
      destruct (supported_pair narrow wide Hin Hiw)
        as [(Hmul & Hp & Hmod) | (Hlt & Hq & Hmod)].
      * rewrite Hmod. cbn. split.
        -- intros [H | [[_ H] | [H | H]]]; try discriminate. now elim H.
        -- intros [H | [H | H]]; now elim H.
      * split; [|intros _; right; right; left;
                 apply andb_false_iff; right; now apply Z.eqb_neq].
        intros _. right. right. intros Hmul.
        pose proof (pow2_multiple_ge wide narrow Hpos Hmul). lia.
    + split; [|intros _; right; right; now left].
      intros _. right. left. intros Hiw.
      apply supported_width_In in Hiw. rewrite Hiw in Hwd. discriminate.
  - split; [|intros _; now left].
    intros _. left. intros Hin. apply supported_width_In in Hin.
    rewrite Hin in Hn. discriminate.
Qed.

Example init_checked_examples :
  raises (WishboneCSRBridge_init checked (CSRInterfaceObj (csr_bus bridge_8_32))
                                 (Some 32)) = false /\
  raises (WishboneCSRBridge_init checked (CSRInterfaceObj (csr_bus bridge_8_32))
                                 None) = false /\
  raises (WishboneCSRBridge_init checked (CSRInterfaceObj (csr_bus bridge_8_32))
                                 (Some 20)) = true /\
  raises (WishboneCSRBridge_init checked (CSRInterfaceObj (csr_bus bridge_8_32))
                                 (Some 128)) = true /\
  raises (WishboneCSRBridge_init checked
            (CSRInterfaceObj {| csr_addr_width := 16; csr_data_width := 16 |})
            (Some 8)) = true.
Proof. repeat split. Qed.

(** ** Elaboration *)

(** C2.  A bridge whose Wishbone interface has a [stall] signal does not
    elaborate: the statement that drives [stall] reads the name [ack], which
    is bound nowhere, so [elaborate] stops with a [NameError] instead of
    driving [stall] with the negation of [wb_bus.ack]. *)
Theorem elaborate_stall_NameError :
  Bridge.elaborate
    {| csr_bus := {| csr_addr_width := 16; csr_data_width := 8 |};
       wb_bus := {| wb_addr_width := 14; wb_data_width := 32;
                    wb_granularity := 8; wb_stall := true |} |}
  = inl (NameError "ack").
Proof. reflexivity. Qed.

(** The same for every bridge with a [stall] signal whose select width is a
    power of two. *)
Lemma elaborate_stall_raises (self : WishboneCSRBridge) (l : Z) :
  wb_stall (wb_bus self) = true ->
  log2_int (sel_len (wb_bus self)) = inr l ->
  Bridge.elaborate self = inl (NameError "ack").
Proof.
  intros Hs Hl. unfold Bridge.elaborate. rewrite Hl, Hs. reflexivity.
Qed.

(** What a successful elaboration fixes. *)
Lemma elaborate_inv (self : WishboneCSRBridge) (d : Bridge.Design) :
  Bridge.elaborate self = inr d ->
  wb_stall (wb_bus self) = false /\
  0 < Bridge.slen d /\ 0 <= Bridge.lbits d /\
  Bridge.slen d = 2 ^ Bridge.lbits d /\
  Bridge.slen d = sel_len (wb_bus self) /\
  Bridge.granularity d = wb_granularity (wb_bus self) /\
  Bridge.addr_width d = csr_addr_width (csr_bus self) /\
  Bridge.adr_width d = wb_addr_width (wb_bus self).
Proof.
  unfold Bridge.elaborate.
  destruct (log2_int (sel_len (wb_bus self))) as [e | l] eqn:Hl; cbn [bind];
    [discriminate|].
  destruct (wb_stall (wb_bus self)); [discriminate|]. cbn [bind ret].
  destruct (Z.leb_spec (sel_len (wb_bus self)) 0) as [Hle | Hgt];
    cbn [bind raise ret]; [discriminate|].
  intros [= <-]. cbn.
  apply log2_int_inv in Hl as [Hl0 [[H0 _] | Hp]]; [lia|].
  repeat split; auto.
Qed.

(** ** The clocked behaviour of the bridge *)

Module BridgeFacts.
Import Bits BitsFacts Bridge.

Lemma run_add (d : Design) (ins : nat -> Inputs) (s : State) (a b : nat) :
  run d ins s (a + b) = run d (fun t => ins (a + t)%nat) (run d ins s a) b.
Proof.
  induction b as [|b IH].
  - now rewrite Nat.add_0_r.
  - rewrite Nat.add_succ_r. cbn [run]. now rewrite IH.
Qed.

Lemma run_ext (d : Design) (ins ins' : nat -> Inputs) (s : State) (n : nat) :
  (forall t, (t < n)%nat -> ins t = ins' t) ->
  run d ins s n = run d ins' s n.
Proof.
  induction n as [|n IH]; intros Heq; [reflexivity|].
  cbn [run]. rewrite IH, Heq by auto with arith. reflexivity.
Qed.

Section Steps.

Variable d : Design.
Hypothesis slen_pos : 0 < slen d.

(** With no request and nothing in progress the registers stay. *)
Lemma step_idle (s : State) (i : Inputs) :
  cycle s = 0 -> ack s = false -> cyc i && stb i = false ->
  sync_step d s i = s.
Proof.
  intros Hc Ha Hi. unfold sync_step, active, is_in_progress.
  rewrite Hc, Ha. cbn. rewrite orb_false_r, Hi. reflexivity.
Qed.

(** A chunk cycle: the previous chunk's read data is registered and the
    counter advances. *)
Lemma step_chunk (s : State) (i : Inputs) :
  0 <= cycle s < slen d -> ack s = false -> active s i = true ->
  sync_step d s i =
  {| cycle := cycle s + 1;
     ack := false;
     dat_r := if 0 <? cycle s
              then set_slice (dat_r s) (segment d (cycle s - 1))
                             (granularity d) (r_data i)
              else dat_r s |}.
Proof.
  intros Hc Ha Hact. unfold sync_step, case_index. rewrite Hact, Ha.
  replace ((0 <=? cycle s) && (cycle s <? slen d)) with true
    by (symmetry; apply andb_true_iff; split;
        [apply Z.leb_le | apply Z.ltb_lt]; lia).
  f_equal. apply trunc_small.
  - unfold cycle_width, bit_length.
    destruct (slen d =? 0); [lia|].
    pose proof (Z.log2_nonneg (Z.abs (slen d))). lia.
  - split; [lia|]. apply bit_length_bound. lia.
Qed.

(** The terminal cycle: the last chunk's read data is registered and
    [ack] is raised. *)
Lemma step_last (s : State) (i : Inputs) :
  cycle s = slen d -> ack s = false -> cyc i = true ->
  sync_step d s i =
  {| cycle := slen d;
     ack := true;
     dat_r := set_slice (dat_r s) (segment d (slen d - 1))
                        (granularity d) (r_data i) |}.
Proof.
  intros Hc Ha Hcyc. unfold sync_step, active, is_in_progress, case_index.
  rewrite Ha, Hcyc, Hc.
  replace (slen d =? 0) with false by (symmetry; apply Z.eqb_neq; lia).
  rewrite Z.ltb_irrefl, andb_false_r, orb_true_r. reflexivity.
Qed.

Hypothesis granularity_nonneg : 0 <= granularity d.

Let chunks : nat := Z.to_nat (slen d).

(** The registers in the course of a transaction that starts in cycle 0
    from an idle bridge. *)
Lemma transaction_trace (ins : nat -> Inputs) (s : State) :
  cycle s = 0 -> ack s = false ->
  cyc (ins O) && stb (ins O) = true ->
  (forall t, (t <= chunks)%nat -> cyc (ins t) = true) ->
  forall k, (k <= chunks)%nat ->
    cycle (run d ins s k) = Z.of_nat k /\
    ack (run d ins s k) = false /\
    forall j, (j + 1 < k)%nat ->
      get_slice (dat_r (run d ins s k)) (segment d (Z.of_nat j))
                (granularity d)
      = trunc (granularity d) (r_data (ins (S j))).
Proof.
  intros Hc Ha Hreq Hcyc k. induction k as [|k IH]; intros Hk.
  - cbn [run]. repeat split; auto. intros j Hj. lia.
  - destruct IH as (IHc & IHa & IHd); [lia|].
    cbn [run]. rewrite step_chunk; cbn [cycle ack dat_r]; auto.
    + repeat split; [lia|]. intros j Hj.
      destruct (Z.ltb_spec 0 (cycle (run d ins s k))) as [Hpos | Hzero];
        [|lia].
      rewrite IHc. unfold segment.
      destruct (Nat.eq_dec (S j) k) as [<- | Hne].
      * replace (Z.of_nat (S j) - 1) with (Z.of_nat j) by lia.
        apply get_set_same; nia.
      * rewrite get_set_other by nia. apply IHd. lia.
    + unfold chunks in Hk. lia.
    + unfold active, is_in_progress. destruct k as [|k].
      * cbn [run]. rewrite Hc. cbn.
        now rewrite orb_false_r.
      * rewrite (Hcyc (S k)) by lia. rewrite IHc.
        replace (Z.of_nat (S k) =? 0) with false
          by (symmetry; apply Z.eqb_neq; lia).
        cbn. apply orb_true_r.
Qed.

(** The registers when [ack] rises, [chunks + 1] edges after the request. *)
Lemma transaction_end (ins : nat -> Inputs) (s : State) :
  cycle s = 0 -> ack s = false ->
  cyc (ins O) && stb (ins O) = true ->
  (forall t, (t <= chunks)%nat -> cyc (ins t) = true) ->
  cycle (run d ins s (S chunks)) = slen d /\
  ack (run d ins s (S chunks)) = true /\
  forall j, (j < chunks)%nat ->
    get_slice (dat_r (run d ins s (S chunks))) (segment d (Z.of_nat j))
              (granularity d)
    = trunc (granularity d) (r_data (ins (S j))).
Proof.
  intros Hc Ha Hreq Hcyc.
  destruct (transaction_trace ins s Hc Ha Hreq Hcyc chunks (le_n _))
    as (Tc & Ta & Td).
  assert (Hch : Z.of_nat chunks = slen d) by (unfold chunks; lia).
  cbn [run]. rewrite step_last; cbn [cycle ack dat_r]; auto; [|lia].
  repeat split. intros j Hj. unfold segment.
  destruct (Nat.eq_dec (S j) chunks) as [E | Hne].
  - rewrite E. replace (slen d - 1) with (Z.of_nat j) by lia.
    apply get_set_same; nia.
  - rewrite get_set_other by nia. apply Td. lia.
Qed.

End Steps.

End BridgeFacts.

Module BridgeClaims.
Import Bits BitsFacts Bridge BridgeFacts.

(** Before the request the idle bridge does not move. *)
Lemma idle_prefix (d : Design) (ins : nat -> Inputs) (s : State) (t0 : nat) :
  cycle s = 0 -> ack s = false ->
  (forall t, (t < t0)%nat -> cyc (ins t) && stb (ins t) = false) ->
  forall t, (t <= t0)%nat -> run d ins s t = s.
Proof.
  intros Hc Ha Hidle t. induction t as [|t IH]; intros Ht; [reflexivity|].
  cbn [run]. rewrite IH by lia. apply step_idle; auto.
Qed.

(** The counter and [ack] in the course of a transaction. *)
Lemma transaction_pace (d : Design) (ins : nat -> Inputs) (s : State) :
  0 < slen d ->
  cycle s = 0 -> ack s = false ->
  cyc (ins O) && stb (ins O) = true ->
  (forall t, (t <= Z.to_nat (slen d))%nat -> cyc (ins t) = true) ->
  (forall k, (k <= Z.to_nat (slen d))%nat ->
     cycle (run d ins s k) = Z.of_nat k /\ ack (run d ins s k) = false) /\
  ack (run d ins s (S (Z.to_nat (slen d)))) = true.
Proof.
  intros Hslen Hc Ha Hreq Hcyc.
  assert (Hk : forall k, (k <= Z.to_nat (slen d))%nat ->
             cycle (run d ins s k) = Z.of_nat k /\ ack (run d ins s k) = false).
  { induction k as [|k IH]; intros Hk; [now cbn|].
    destruct IH as [IHc IHa]; [lia|].
    cbn [run]. rewrite step_chunk; cbn [cycle ack]; auto; try lia.
    unfold active, is_in_progress. destruct k as [|k].
    - cbn [run]. rewrite Hc. cbn. now rewrite orb_false_r.
    - rewrite (Hcyc (S k)) by lia. rewrite IHc.
      replace (Z.of_nat (S k) =? 0) with false
        by (symmetry; apply Z.eqb_neq; lia).
      cbn. apply orb_true_r. }
  split; [exact Hk|].
  destruct (Hk _ (le_n _)) as [Tc Ta].
  cbn [run]. rewrite step_last; auto. lia.
Qed.

(** Pacing of a transaction that is requested in cycle [t0]. *)
Lemma pace_from (d : Design) (ins : nat -> Inputs) (s : State) (t0 : nat) :
  0 < slen d ->
  cycle s = 0 -> ack s = false ->
  (forall t, (t < t0)%nat -> cyc (ins t) && stb (ins t) = false) ->
  cyc (ins t0) && stb (ins t0) = true ->
  (forall t, (t0 <= t <= t0 + Z.to_nat (slen d))%nat -> cyc (ins t) = true) ->
  (forall t, (t <= t0 + Z.to_nat (slen d))%nat -> ack (run d ins s t) = false) /\
  ack (run d ins s (t0 + Z.to_nat (slen d) + 1)) = true.
Proof.
  intros Hslen Hc Ha Hidle Hreq Hcyc.
  pose proof (idle_prefix d ins s t0 Hc Ha Hidle) as Hpre.
  destruct (transaction_pace d (fun t => ins (t0 + t)%nat) s Hslen Hc Ha)
    as [Hrun Hend].
  { now rewrite Nat.add_0_r. }
  { intros t Ht. apply Hcyc. lia. }
  split.
  - intros t Ht. destruct (Nat.le_gt_cases t t0) as [Hle | Hgt].
    + now rewrite Hpre.
    + replace t with (t0 + (t - t0))%nat by lia.
      rewrite run_add, (Hpre t0) by lia. apply Hrun. lia.
  - replace (t0 + Z.to_nat (slen d) + 1)%nat
      with (t0 + S (Z.to_nat (slen d)))%nat by lia.
    rewrite run_add, (Hpre t0) by lia. exact Hend.
Qed.

(** C1.  Bridge pacing: from an idle bridge, if [cyc & stb] is first
    asserted in cycle [t0] and [cyc] is held, then [ack] is low up to and
    including cycle [t0 + chunks] and high in cycle [t0 + chunks + 1],
    where [chunks] is the wide data width over the narrow one; the other
    inputs ([sel] among them) have no influence on it. *)
Theorem ack_after_chunks_plus_one
        (self : WishboneCSRBridge) (d : Design)
        (ins : nat -> Inputs) (s : State) (t0 : nat) :
  elaborate self = inr d ->
  let chunks :=
    Z.to_nat (wb_data_width (wb_bus self) / wb_granularity (wb_bus self)) in
  cycle s = 0 -> ack s = false ->
  (forall t, (t < t0)%nat -> cyc (ins t) && stb (ins t) = false) ->
  cyc (ins t0) && stb (ins t0) = true ->
  (forall t, (t0 <= t <= t0 + chunks)%nat -> cyc (ins t) = true) ->
  (forall t, (t <= t0 + chunks)%nat -> ack (run d ins s t) = false) /\
  ack (run d ins s (t0 + chunks + 1)) = true /\
  (forall ins' : nat -> Inputs,
      (forall t, cyc (ins' t) = cyc (ins t) /\ stb (ins' t) = stb (ins t)) ->
      forall t, (t <= t0 + chunks + 1)%nat ->
        ack (run d ins' s t) = ack (run d ins s t)).
Proof.
  intros Helab chunks Hc Ha Hidle Hreq Hcyc.
  apply elaborate_inv in Helab as (_ & Hslen & _ & _ & Hsel & _).
  unfold sel_len in Hsel. subst chunks. rewrite <- Hsel in *.
  destruct (pace_from d ins s t0 Hslen Hc Ha Hidle Hreq Hcyc) as [Hlow Hhigh].
  split; [exact Hlow|]. split; [exact Hhigh|].
  intros ins' Hsame.
  destruct (pace_from d ins' s t0 Hslen Hc Ha) as [Hlow' Hhigh'].
  { intros t Ht. destruct (Hsame t) as [-> ->]. now apply Hidle. }
  { destruct (Hsame t0) as [-> ->]. exact Hreq. }
  { intros t Ht. destruct (Hsame t) as [-> _]. now apply Hcyc. }
  intros t Ht.
  destruct (Nat.eq_dec t (t0 + Z.to_nat (slen d) + 1)) as [-> | Hne].
  - now rewrite Hhigh, Hhigh'.
  - rewrite Hlow, Hlow' by lia. reflexivity.
Qed.

(** C4.  Idle-return: whenever [ack] is high, the next clock edge clears
    the cycle counter and [ack], whatever the inputs. *)
Theorem ack_returns_to_idle (d : Design) (s : State) (i : Inputs) :
  ack s = true ->
  cycle (sync_step d s i) = 0 /\ ack (sync_step d s i) = false.
Proof.
  intros Ha. unfold sync_step. rewrite Ha. split; reflexivity.
Qed.

(** C10.  Suspension: with the counter non-zero, [ack] low and [cyc] low, a
    clock edge leaves the counter, [ack] and [dat_r] as they are; so the
    registers are still the same after any number of such cycles, and the
    transaction goes on from the same chunk when [cyc] comes back. *)
Theorem suspended_without_cyc (d : Design) (s : State) (i : Inputs) :
  cycle s <> 0 -> ack s = false -> cyc i = false ->
  (cycle (sync_step d s i) = cycle s /\
   ack (sync_step d s i) = ack s /\
   dat_r (sync_step d s i) = dat_r s) /\
  (forall (ins : nat -> Inputs) (n : nat),
      (forall t, (t < n)%nat -> cyc (ins t) = false) ->
      run d ins s n = s).
Proof.
  intros _ Ha Hi.
  assert (Hstep : forall i', cyc i' = false -> sync_step d s i' = s).
  { intros i' Hi'. unfold sync_step, active. rewrite Ha, Hi'. reflexivity. }
  split.
  - rewrite Hstep by exact Hi. repeat split.
  - intros ins n Hlow. induction n as [|n IH]; [reflexivity|].
    cbn [run]. rewrite IH by auto with arith. apply Hstep, Hlow. lia.
Qed.

Lemma ack_after_chunks_plus_one_witness :
  (forall t, (t <= 4)%nat -> ack (run design_8_32 read_all reset t) = false) /\
  ack (run design_8_32 read_all reset 5) = true.
Proof.
  destruct (ack_after_chunks_plus_one bridge_8_32 design_8_32 read_all
                                      reset 0)
    as (Hlow & Hhigh & _); try reflexivity.
  - intros t Ht. lia.
  - split; [exact Hlow | exact Hhigh].
Defined.

Lemma ack_returns_to_idle_witness :
  let s := {| cycle := 4; ack := true; dat_r := 0 |} in
  cycle (sync_step design_8_32 s (read_all 0)) = 0 /\
  ack (sync_step design_8_32 s (read_all 0)) = false.
Proof.
  exact (ack_returns_to_idle design_8_32
           {| cycle := 4; ack := true; dat_r := 0 |} (read_all 0) eq_refl).
Defined.

Lemma suspended_without_cyc_witness :
  let s := {| cycle := 2; ack := false; dat_r := 7 |} in
  let i := {| cyc := false; stb := true; we := false; sel := 15; adr := 3;
              dat_w := 0; r_data := 9 |} in
  sync_step design_8_32 s i = s /\
  run design_8_32 (fun _ => i) s 3 = s.
Proof.
  intros s i.
  destruct (suspended_without_cyc design_8_32 s i) as [_ Hrun].
  - cbn. lia.
  - reflexivity.
  - reflexivity.
  - split; [apply (Hrun (fun _ => i) 1%nat) | apply (Hrun (fun _ => i) 3%nat)];
      reflexivity.
Defined.

(** What the bridge drives in a chunk cycle. *)
Lemma comb_chunk (d : Design) (s : State) (i : Inputs) :
  0 <= cycle s < slen d -> active s i = true ->
  r_stb (comb d s i) = Z.testbit (sel i) (cycle s) && negb (we i) /\
  w_stb (comb d s i) = Z.testbit (sel i) (cycle s) && we i /\
  w_data (comb d s i) =
    get_slice (dat_w i) (granularity d * cycle s) (granularity d).
Proof.
  intros Hc Hact. unfold comb, case_index. rewrite Hact.
  replace ((0 <=? cycle s) && (cycle s <? slen d)) with true
    by (symmetry; apply andb_true_iff; split;
        [apply Z.leb_le | apply Z.ltb_lt]; lia).
  repeat split.
Qed.

(** C5.  Wide read reassembly: in a read transaction of a constructed
    bridge, chunk [k] is requested on the CSR bus in cycle [k]; in every
    later cycle [k >= 1] the CSR read data of that cycle, which answers the
    request for chunk [k - 1], is registered into slice [k - 1] of [dat_r]
    (the terminal cycle [k = chunks] filling the last slice); and in the
    cycle in which [ack] is high, slice [k] of [dat_r] holds the read data
    that answered chunk [k], for every [k < chunks]. *)
Theorem read_data_reassembled
        (env : Collaborators) (obj : PyObject) (dw : option Z)
        (self : WishboneCSRBridge) (d : Design)
        (ins : nat -> Inputs) (s : State) :
  WishboneCSRBridge_init env obj dw = inr self ->
  elaborate self = inr d ->
  let chunks := Z.to_nat (slen d) in
  let g := granularity d in
  cycle s = 0 -> ack s = false ->
  cyc (ins O) && stb (ins O) = true ->
  (forall t, (t <= chunks)%nat -> cyc (ins t) = true) ->
  (forall t, (t <= chunks)%nat -> we (ins t) = false) ->
  (forall k, (k < chunks)%nat ->
     cycle (run d ins s k) = Z.of_nat k /\
     r_stb (comb d (run d ins s k) (ins k)) =
       Z.testbit (sel (ins k)) (Z.of_nat k) /\
     w_stb (comb d (run d ins s k) (ins k)) = false) /\
  (forall k, (1 <= k <= chunks)%nat ->
     cycle (run d ins s k) = Z.of_nat k /\
     get_slice (dat_r (run d ins s (S k))) (g * (Z.of_nat k - 1)) g
     = trunc g (r_data (ins k))) /\
  ack (run d ins s (S chunks)) = true /\
  (forall k, (k < chunks)%nat ->
     get_slice (dat_r (run d ins s (S chunks))) (g * Z.of_nat k) g
     = trunc g (r_data (ins (S k)))).
Proof.
  intros Hinit Helab chunks g Hc Ha Hreq Hcyc Hwe.
  apply init_inv in Hinit as (bus & l & _ & Hsup & _ & _ & _ & ->).
  apply elaborate_inv in Helab as (_ & Hslen & _ & _ & _ & Hg & _).
  cbn in Hg. apply supported_width_pos in Hsup.
  assert (Hgran : 0 <= granularity d) by lia.
  pose proof (transaction_trace d Hslen Hgran ins s Hc Ha Hreq Hcyc) as Htr.
  destruct (transaction_end d Hslen Hgran ins s Hc Ha Hreq Hcyc)
    as (_ & Hack & Hend).
  split; [|split; [|split]].
  - intros k Hk. destruct (Htr k) as (Tc & Ta & _); [fold chunks; lia|].
    split; [exact Tc|].
    destruct (comb_chunk d (run d ins s k) (ins k)) as (Hr & Hw & _).
    + rewrite Tc. subst chunks. lia.
    + unfold active, is_in_progress. destruct k as [|k].
      * cbn [run]. rewrite Hc. cbn. now rewrite orb_false_r.
      * rewrite (Hcyc (S k)) by lia. rewrite Tc.
        replace (Z.of_nat (S k) =? 0) with false
          by (symmetry; apply Z.eqb_neq; lia).
        cbn. apply orb_true_r.
    + rewrite Hr, Hw, Tc, (Hwe k) by lia.
      now rewrite andb_true_r, andb_false_r.
  - intros k Hk. destruct (Htr k) as (Tc & _ & _); [fold chunks; lia|].
    split; [exact Tc|].
    destruct (Nat.eq_dec k chunks) as [-> | Hne].
    + specialize (Hend (chunks - 1)%nat ltac:(fold chunks; lia)).
      unfold segment in Hend.
      replace (Z.of_nat (chunks - 1)) with (Z.of_nat chunks - 1) in Hend
        by lia.
      replace (S (chunks - 1)) with chunks in Hend by lia. exact Hend.
    + destruct (Htr (S k)) as (_ & _ & Td); [fold chunks; lia|].
      specialize (Td (k - 1)%nat ltac:(lia)). unfold segment in Td.
      replace (Z.of_nat (k - 1)) with (Z.of_nat k - 1) in Td by lia.
      replace (S (k - 1)) with k in Td by lia. exact Td.
  - exact Hack.
  - intros k Hk. apply (Hend k). exact Hk.
Qed.

Lemma read_data_reassembled_witness :
  ack (run design_8_32 read_all reset 5) = true /\
  (forall k, (k < 4)%nat ->
     get_slice (dat_r (run design_8_32 read_all reset 5)) (8 * Z.of_nat k) 8
     = trunc 8 (r_data (read_all (S k)))).
Proof.
  destruct (read_data_reassembled unchecked
              (CSRInterfaceObj (csr_bus bridge_8_32)) (Some 32)
              bridge_8_32 design_8_32 read_all reset)
    as (_ & _ & Hack & Hdata); try reflexivity.
  split; [exact Hack | exact Hdata].
Defined.

Example read_all_dat_r :
  dat_r (run design_8_32 read_all reset 5) = 0x14131211.
Proof. reflexivity. Qed.

End BridgeClaims.


(** ** The CSR address driven by the bridge *)

Module BridgeAddress.
Import Bits BitsFacts Bridge.

(** The claim of C6 as it is written fails: with a one-bit CSR address behind
    a four-chunk Wishbone bus, the two-bit chunk index does not fit the CSR
    address; in the cycle of chunk 2 the bridge drives address 0, while the
    concatenation is 2. *)
Lemma csr_addr_truncated :
  WishboneCSRBridge_init unchecked (CSRInterfaceObj (csr_bus bridge_narrow))
                         (Some 32) = inr bridge_narrow /\
  elaborate bridge_narrow = inr design_narrow /\
  cycle (run design_narrow read_all reset 2) = 2 /\
  addr (comb design_narrow (run design_narrow read_all reset 2) (read_all 2)) = 0 /\
  ~ address_is_concatenation design_narrow
      (run design_narrow read_all reset 2) (read_all 2).
Proof.
  repeat split. unfold address_is_concatenation. cbn. discriminate.
Qed.

(** The address in both branches of the switch. *)
Lemma comb_addr (d : Design) (s : State) (i : Inputs) :
  addr (comb d s i) =
  trunc (addr_width d) (Cat (cycle s) (lbits d) (adr i) (adr_width d)).
Proof.
  unfold comb. destruct (if active s i then case_index d s else None); reflexivity.
Qed.

(** C6, amended.  For a constructed bridge, in every cycle the CSR address
    is the concatenation of the low [log2(chunks)] bits of the cycle counter
    (low bits) with the Wishbone address (above them), cut to the CSR address
    width: bit [n] of the address is bit [n] of the counter below
    [log2(chunks)], bit [n - log2(chunks)] of the Wishbone address from there
    up to the CSR address width, and 0 above.  When the CSR address is at
    least [log2(chunks)] bits wide nothing is cut and the address is the
    concatenation itself. *)
Theorem csr_addr_bits
        (env : Collaborators) (obj : PyObject) (dw : option Z)
        (self : WishboneCSRBridge) (d : Design) (s : State) (i : Inputs) :
  WishboneCSRBridge_init env obj dw = inr self ->
  elaborate self = inr d ->
  0 <= csr_addr_width (csr_bus self) ->
  let a := addr (comb d s i) in
  let l := lbits d in
  let aw := csr_addr_width (csr_bus self) in
  wb_data_width (wb_bus self) / csr_data_width (csr_bus self) = 2 ^ l /\
  (forall n, 0 <= n ->
     Z.testbit a n =
     (n <? aw) &&
     (if n <? l then Z.testbit (cycle s) n else Z.testbit (adr i) (n - l))) /\
  (l <= aw ->
     a = cycle s mod 2 ^ l + 2 ^ l * (adr i mod 2 ^ (aw - l)) /\
     address_is_concatenation d s i).
Proof.
  intros Hinit Helab Haw a l aw.
  apply init_inv in Hinit as (bus & l0 & _ & _ & Hl0 & _ & _ & ->).
  cbn [csr_bus wb_bus wb_data_width csr_addr_width] in *.
  unfold elaborate in Helab. unfold sel_len in Helab.
  cbn [csr_bus wb_bus wb_data_width wb_granularity wb_stall wb_addr_width]
    in Helab.
  rewrite Hl0 in Helab. cbn [bind] in Helab.
  destruct (wb_default_stall env); [discriminate|]. cbn [bind ret] in Helab.
  destruct (effective_width bus dw / csr_data_width bus <=? 0) eqn:Hq;
    cbn [bind raise ret] in Helab; [discriminate|].
  apply Z.leb_gt in Hq.
  injection Helab as <-. subst a l aw. rewrite comb_addr.
  cbn [lbits addr_width adr_width slen].
  apply log2_int_inv in Hl0 as [Hl [[H0 _] | Hp]]; [lia|].
  assert (Hw : 0 <= Z.max 0 (csr_addr_width bus - l0)) by lia.
  split; [exact Hp|]. split.
  - intros n Hn. rewrite testbit_trunc, testbit_Cat by lia.
    destruct (Z.ltb_spec n (csr_addr_width bus)) as [Hin | Hout];
      [|now rewrite andb_false_r].
    rewrite andb_true_r. cbn [andb].
    destruct (Z.ltb_spec n l0); [reflexivity|].
    replace (n - l0 <? Z.max 0 (csr_addr_width bus - l0)) with true
      by (symmetry; apply Z.ltb_lt; lia).
    apply andb_true_r.
  - intros Hle.
    assert (Hcat : trunc (csr_addr_width bus)
                     (Cat (cycle s) l0 (adr i)
                          (Z.max 0 (csr_addr_width bus - l0)))
                   = Cat (cycle s) l0 (adr i)
                         (Z.max 0 (csr_addr_width bus - l0))).
    { apply trunc_small; [lia|]. rewrite Cat_value by lia.
      rewrite Z.max_r by lia.
      pose proof (Z.mod_pos_bound (cycle s) (2 ^ l0)
                    ltac:(apply Z.pow_pos_nonneg; lia)).
      pose proof (Z.mod_pos_bound (adr i) (2 ^ (csr_addr_width bus - l0))
                    ltac:(apply Z.pow_pos_nonneg; lia)).
      replace (2 ^ csr_addr_width bus)
        with (2 ^ l0 * 2 ^ (csr_addr_width bus - l0))
        by (rewrite <- Z.pow_add_r by lia; f_equal; lia).
      nia. }
    split.
    + rewrite Hcat, Cat_value by lia. now rewrite Z.max_r by lia.
    + unfold address_is_concatenation. rewrite comb_addr.
      cbn [lbits addr_width adr_width]. exact Hcat.
Qed.

Lemma csr_addr_bits_witness :
  let s := run design_8_32 read_all reset 2 in
  addr (comb design_8_32 s (read_all 2)) = 2 mod 2 ^ 2 + 2 ^ 2 * (3 mod 2 ^ (16 - 2)) /\
  address_is_concatenation design_8_32 s (read_all 2).
Proof.
  intros s.
  destruct (csr_addr_bits unchecked (CSRInterfaceObj (csr_bus bridge_8_32))
                          (Some 32) bridge_8_32 design_8_32 s (read_all 2))
    as (_ & _ & H); try reflexivity.
  - cbn. lia.
  - apply H. cbn. lia.
Defined.

Example csr_addr_chunk_2 :
  addr (comb design_8_32 (run design_8_32 read_all reset 2) (read_all 2)) = 14.
Proof. reflexivity. Qed.

End BridgeAddress.


(** ** The address map of the multiplexer *)

Module MuxMap.
Import Mux.

Lemma ceil_div_spec (a b : Z) :
  0 < b -> b * (ceil_div a b - 1) < a <= b * ceil_div a b.
Proof.
  intros Hb. unfold ceil_div.
  pose proof (Z.mul_div_le (a + b - 1) b Hb).
  pose proof (Z.mul_succ_div_gt (a + b - 1) b Hb).
  lia.
Qed.

Lemma round_up_1 (x : Z) : round_up x (2 ^ 0) = x.
Proof.
  unfold round_up, ceil_div. change (2 ^ 0) with 1.
  rewrite Z.div_1_r. lia.
Qed.

Lemma round_up_ge (x n : Z) : 0 < n -> x <= round_up x n.
Proof.
  intros Hn. unfold round_up. pose proof (ceil_div_spec x n Hn). lia.
Qed.

(** With alignment 0, [add] places the element at the cursor with its raw
    chunk count. *)
Lemma add_unaligned (m : Multiplexer) (e : Element) :
  alignment m = 0 ->
  snd (add m e) = (cursor m, raw_chunks m e) /\
  cursor (fst (add m e)) = cursor m + raw_chunks m e /\
  alignment (fst (add m e)) = 0 /\
  data_width (fst (add m e)) = data_width m.
Proof.
  intros HA. unfold add. cbn. rewrite HA, !round_up_1. auto.
Qed.

Lemma add_all_packing (es : list Element) :
  forall m, alignment m = 0 -> 0 < data_width m ->
  List.length (snd (add_all m es)) = List.length es /\
  forall k e, nth_error es k = Some e ->
    exists c,
      nth_error (snd (add_all m es)) k =
        Some (cursor m + chunk_sum (firstn k (snd (add_all m es))), Z.max 1 c) /\
      data_width m * (c - 1) < width e <= data_width m * c.
Proof.
  induction es as [|e0 es IH]; intros m HA Hdw.
  - split; [reflexivity|]. intros [|k] e; discriminate.
  - destruct (add_unaligned m e0 HA) as (Hr & Hcur & HA1 & Hdw1).
    cbn [add_all]. destruct (add m e0) as [m1 r] eqn:Eadd.
    cbn [fst snd] in *. subst r.
    specialize (IH m1 HA1 ltac:(lia)). destruct IH as [IHlen IHnth].
    destruct (add_all m1 es) as [m2 rs] eqn:Eall. cbn [snd] in *.
    split; [cbn; now rewrite IHlen|].
    intros [|k] e Hk.
    + injection Hk as ->. exists (ceil_div (width e) (data_width m)).
      split.
      * cbn. unfold raw_chunks. f_equal. f_equal. lia.
      * apply ceil_div_spec, Hdw.
    + cbn [nth_error] in Hk. destruct (IHnth k e Hk) as (c & Hn & Hc).
      exists c. split; [|now rewrite <- Hdw1].
      cbn [nth_error firstn chunk_sum fold_right snd]. rewrite Hn.
      fold (chunk_sum (firstn k rs)). f_equal. f_equal. lia.
Qed.

(** C8.  Address-map packing: on a multiplexer constructed with alignment 0,
    a sequence of [add] calls returns one pair per element; the base offset of
    the k-th pair is the sum of the chunk counts returned before it, and its
    chunk count is [max(1, c)] where [c] is the ceiling of the element width
    over the data width (the integer with
    [data_width * (c - 1) < width <= data_width * c]), so a width-0 element
    takes one chunk. *)
Theorem add_packs_in_order (aw dw : Z) (m : Multiplexer) (es : list Element) :
  CSRMultiplexer aw dw 0 = inr m ->
  List.length (snd (add_all m es)) = List.length es /\
  forall k e, nth_error es k = Some e ->
    exists c,
      nth_error (snd (add_all m es)) k =
        Some (chunk_sum (firstn k (snd (add_all m es))), Z.max 1 c) /\
      dw * (c - 1) < width e <= dw * c.
Proof.
  unfold CSRMultiplexer. intros Hm.
  destruct (aw <=? 0); [discriminate|].
  destruct (Z.leb_spec dw 0) as [|Hdw]; [discriminate|].
  cbn in Hm. injection Hm as <-.
  destruct (add_all_packing es (create aw dw 0) eq_refl Hdw) as [Hlen Hnth].
  split; [exact Hlen|]. intros k e Hk.
  destruct (Hnth k e Hk) as (c & Hn & Hc). exists c.
  cbn [create cursor data_width] in *. rewrite Z.add_0_l in Hn. auto.
Qed.

Lemma add_packs_in_order_witness :
  let es := [ {| width := 16; access := RW |}; {| width := 0; access := RW |};
              {| width := 12; access := R |} ] in
  List.length (snd (add_all (create 16 8 0) es)) = 3%nat /\
  exists c,
    nth_error (snd (add_all (create 16 8 0) es)) 2 =
      Some (chunk_sum (firstn 2 (snd (add_all (create 16 8 0) es))), Z.max 1 c) /\
    8 * (c - 1) < 12 <= 8 * c.
Proof.
  intros es.
  destruct (add_packs_in_order 16 8 (create 16 8 0) es eq_refl) as [Hlen Hnth].
  split; [exact Hlen|].
  exact (Hnth 2%nat {| width := 12; access := R |} eq_refl).
Defined.

(** The scenarios of the test file. *)
Example test_constructors_wrong :
  raises (CSRElement (-1) RW) = true /\
  raises (CSRMultiplexer (-1) 8 0) = true /\
  raises (CSRMultiplexer 16 (-1) 0) = true /\
  raises (CSRMultiplexer 16 8 (-1)) = true /\
  CSRMultiplexer 16 8 0 = inr (create 16 8 0) /\
  CSRElement 0 RW = inr {| width := 0; access := RW |}.
Proof. repeat split. Qed.

Example test_add_12b :
  snd (add (create 16 8 0) {| width := 12; access := RW |}) = (0, 2).
Proof. reflexivity. Qed.

Example test_add_two :
  snd (add_all (create 16 8 0)
               [ {| width := 16; access := RW |}; {| width := 8; access := RW |} ])
  = [(0, 2); (2, 1)].
Proof. reflexivity. Qed.

Example test_add_width_0 :
  snd (add_all (create 16 8 0)
               [ {| width := 0; access := RW |}; {| width := 4; access := RW |} ])
  = [(0, 1); (1, 1)].
Proof. reflexivity. Qed.

Example test_align_to :
  let (m1, r1) := add (create 16 8 0) {| width := 8; access := RW |} in
  let (m2, c) := align_to m1 2 in
  (r1, c, snd (add m2 {| width := 8; access := RW |})) = ((0, 1), 4, (4, 1)).
Proof. reflexivity. Qed.

Example test_aligned_add_two :
  snd (add_all (create 16 8 2)
               [ {| width := 8; access := RW |}; {| width := 16; access := RW |} ])
  = [(0, 4); (4, 4)].
Proof. reflexivity. Qed.

Example test_over_align_to :
  let (m1, r1) := add (create 16 8 2) {| width := 8; access := RW |} in
  let (m2, c) := align_to m1 3 in
  (r1, c, snd (add m2 {| width := 8; access := RW |})) = ((0, 4), 8, (8, 4)).
Proof. reflexivity. Qed.

Example test_under_align_to :
  let (m1, r1) := add (create 16 8 2) {| width := 8; access := RW |} in
  let (m2, c) := align_to m1 1 in
  (r1, c, snd (add m2 {| width := 8; access := RW |})) = ((0, 4), 4, (4, 4)).
Proof. reflexivity. Qed.

End MuxMap.


(** ** The write path of the multiplexer *)

Module MuxWrite.
Import Bits BitsFacts Mux MuxMap.

Lemma placed_from_app (ps : list Placed) (p : Placed) :
  forall c, placed_from c ps -> end_of c ps <= base p -> 0 < size p ->
  placed_from c (ps ++ [p]).
Proof.
  induction ps as [|q ps IH]; intros c Hps Hend Hsz; cbn in *.
  - auto.
  - destruct Hps as (Hc & Hq & Hrest). auto.
Qed.

Lemma end_of_app (ps : list Placed) (p : Placed) :
  forall c, end_of c (ps ++ [p]) = base p + size p.
Proof.
  induction ps as [|q ps IH]; intros c; cbn; auto.
Qed.

Lemma raw_chunks_fits (m : Multiplexer) (e : Element) :
  0 < data_width m ->
  1 <= raw_chunks m e /\ width e <= raw_chunks m e * data_width m.
Proof.
  intros Hdw. unfold raw_chunks.
  pose proof (ceil_div_spec (width e) (data_width m) Hdw). nia.
Qed.

(** Every multiplexer that can be built has disjoint, ordered chunk ranges
    that hold their elements. *)
Lemma built_well_placed (m : Multiplexer) : built m -> well_placed m.
Proof.
  induction 1 as [aw dw al Haw Hdw Hal | m e Hb IH He | m n Hb IH Hn].
  - unfold well_placed. cbn. repeat split; auto; lia.
  - destruct IH as (Hdw & Hal & Hpl & Hend & Hfit).
    assert (Hpow : 0 < 2 ^ alignment m) by (apply Z.pow_pos_nonneg; lia).
    destruct (raw_chunks_fits m e Hdw) as [Hraw Hw].
    pose proof (round_up_ge (cursor m) _ Hpow).
    pose proof (round_up_ge (raw_chunks m e) _ Hpow).
    unfold well_placed, add.
    cbn [fst data_width alignment cursor elements].
    split; [exact Hdw|]. split; [exact Hal|]. split; [|split].
    + apply placed_from_app; cbn [base size]; [exact Hpl | lia | lia].
    + rewrite end_of_app. cbn [base size]. lia.
    + apply Forall_app. split; [exact Hfit|].
      constructor; [|constructor]. unfold fits. cbn [elem size]. nia.
  - destruct IH as (Hdw & Hal & Hpl & Hend & Hfit).
    assert (Hpow : 0 < 2 ^ n) by (apply Z.pow_pos_nonneg; lia).
    pose proof (round_up_ge (cursor m) _ Hpow).
    unfold well_placed, align_to.
    cbn [fst data_width alignment cursor elements].
    repeat split; auto. lia.
Qed.

Lemma placed_from_base (ps : list Placed) :
  forall c j p, placed_from c ps -> nth_error ps j = Some p -> c <= base p.
Proof.
  induction ps as [|q ps IH]; intros c j p Hpl Hj.
  - destruct j; discriminate.
  - destruct Hpl as (Hc & Hq & Hrest). destruct j as [|j].
    + injection Hj as <-. exact Hc.
    + cbn in Hj. specialize (IH _ _ _ Hrest Hj). lia.
Qed.

(** Decoding an address of a placed element finds that element and the
    chunk. *)
Lemma decode_placed (ps : list Placed) :
  forall c j p k,
    placed_from c ps -> nth_error ps j = Some p -> 0 <= k < size p ->
    decode ps (base p + k) = Some (j, k).
Proof.
  induction ps as [|q ps IH]; intros c j p k Hpl Hj Hk.
  - destruct j; discriminate.
  - destruct Hpl as (Hc & Hq & Hrest). destruct j as [|j]; cbn [decode].
    + injection Hj as <-.
      replace ((base q <=? base q + k) && (base q + k <? base q + size q))
        with true
        by (symmetry; apply andb_true_iff; split;
            [apply Z.leb_le | apply Z.ltb_lt]; lia).
      f_equal. f_equal. lia.
    + cbn in Hj. pose proof (placed_from_base _ _ _ _ Hrest Hj).
      replace (base p + k <? base q + size q) with false
        by (symmetry; apply Z.ltb_ge; lia).
      rewrite andb_false_r. now rewrite (IH _ _ _ _ Hrest Hj Hk).
Qed.

Lemma shadow_width_bound (m : Multiplexer) (j : nat) (p : Placed) :
  nth_error (elements m) j = Some p ->
  0 <= shadow_width m /\ width (elem p) <= shadow_width m.
Proof.
  unfold shadow_width. generalize (elements m) as ps. intros ps. revert j.
  induction ps as [|q ps IH]; intros j Hj.
  - destruct j; discriminate.
  - cbn [map fold_right]. destruct j as [|j].
    + injection Hj as <-.
      assert (0 <= fold_right Z.max 0 (map (fun p => width (elem p)) ps)).
      { clear. induction ps; cbn; lia. }
      lia.
    + cbn in Hj. specialize (IH _ Hj). lia.
Qed.

Lemma nth_map_seq (f : nat -> bool) (n : nat) :
  forall a j,
    nth j (map f (seq a n)) false = if (j <? n)%nat then f (a + j)%nat else false.
Proof.
  induction n as [|n IH]; intros a j.
  - destruct j; reflexivity.
  - destruct j as [|j]; cbn [seq map nth].
    + now rewrite Nat.add_0_r.
    + rewrite IH. replace (S a + j)%nat with (a + S j)%nat by lia.
      reflexivity.
Qed.

Section OneElement.

Variable m : Multiplexer.
Variable j : nat.
Variable p : Placed.
Hypothesis m_placed : well_placed m.
Hypothesis p_at_j : nth_error (elements m) j = Some p.
Hypothesis p_writable : writable (access (elem p)) = true.

Lemma j_in_range : (j < List.length (elements m))%nat.
Proof. apply nth_error_Some. rewrite p_at_j. discriminate. Qed.

(** A write to chunk [k] of the element. *)
Lemma step_write (s : State) (k x : Z) :
  0 <= k < size p ->
  w_shadow (sync_step m s (write (base p + k) x)) =
    trunc (shadow_width m)
          (set_slice (w_shadow s) (k * data_width m) (data_width m) x) /\
  elem_w_stb (sync_step m s (write (base p + k) x)) j = (k =? size p - 1).
Proof.
  intros Hk. destruct m_placed as (_ & _ & Hpl & _ & _).
  unfold sync_step, selected_write. cbn [w_stb addr write w_data].
  rewrite (decode_placed _ _ _ _ _ Hpl p_at_j Hk), p_at_j, p_writable.
  cbn [w_shadow]. split; [reflexivity|].
  unfold elem_w_stb. cbn [w_stb_regs]. rewrite nth_map_seq.
  replace (j <? List.length (elements m))%nat with true
    by (symmetry; apply Nat.ltb_lt, j_in_range).
  cbn. now rewrite Nat.eqb_refl.
Qed.

(** A cycle without a write request strobes no element. *)
Lemma step_no_write (s : State) (i : Inputs) :
  w_stb i = false -> elem_w_stb (sync_step m s i) j = false.
Proof.
  intros Hi. unfold sync_step, selected_write. rewrite Hi.
  unfold elem_w_stb. cbn [w_stb_regs]. rewrite nth_map_seq.
  now destruct (j <? List.length (elements m))%nat.
Qed.

Variable d : nat -> Z.

Lemma assemble_high (n : nat) (b : Z) :
  0 < data_width m -> Z.of_nat n * data_width m <= b ->
  Z.testbit (assemble (data_width m) d n) b = false.
Proof.
  intros Hdw. induction n as [|n IH]; intros Hb; cbn [assemble].
  - apply Z.bits_0.
  - rewrite Z.lor_spec, IH by nia.
    rewrite Z.shiftl_spec, testbit_trunc by nia.
    replace (b - Z.of_nat n * data_width m <? data_width m) with false
      by (symmetry; apply Z.ltb_ge; nia).
    now rewrite andb_false_r.
Qed.

(** The accumulator after the chunks [0 .. k - 1] have been written in
    order. *)
Lemma shadow_after_writes (ins : nat -> Inputs) (s : State) (k : nat) :
  (Z.of_nat k <= size p) ->
  (forall t, (t < k)%nat -> ins t = write (base p + Z.of_nat t) (d t)) ->
  forall b, 0 <= b < shadow_width m -> b < Z.of_nat k * data_width m ->
    Z.testbit (w_shadow (run m ins s k)) b =
    Z.testbit (assemble (data_width m) d k) b.
Proof.
  destruct m_placed as (Hdw & _).
  induction k as [|k IH]; intros Hk Hins b Hb Hbk; [lia|].
  cbn [run assemble]. rewrite (Hins k) by lia.
  destruct (step_write (run m ins s k) (Z.of_nat k) (d k)) as [-> _]; [lia|].
  rewrite Nat2Z.inj_succ in Hbk.
  assert (Hbk' : b < Z.of_nat k * data_width m + data_width m) by lia.
  rewrite testbit_trunc, testbit_set_slice by nia.
  replace (b <? shadow_width m) with true by (symmetry; apply Z.ltb_lt; lia).
  rewrite andb_true_r, Z.lor_spec.
  replace (b <? Z.of_nat k * data_width m + data_width m) with true
    by (symmetry; apply Z.ltb_lt; lia).
  rewrite andb_true_r.
  destruct (Z.leb_spec (Z.of_nat k * data_width m) b) as [Hin | Hlow].
  - rewrite assemble_high by lia.
    rewrite Z.shiftl_spec, testbit_trunc by lia.
    replace (b - Z.of_nat k * data_width m <? data_width m) with true
      by (symmetry; apply Z.ltb_lt; lia).
    now rewrite andb_true_r.
  - rewrite Z.shiftl_spec_low by lia.
    rewrite orb_false_r. apply IH; auto; lia.
Qed.

End OneElement.

(** Decoding only finds the element whose range holds the address. *)
Lemma decode_inv (ps : list Placed) :
  forall a j k,
    decode ps a = Some (j, k) ->
    exists p, nth_error ps j = Some p /\ a = base p + k /\ 0 <= k < size p.
Proof.
  induction ps as [|q ps IH]; intros a j k Hd; [discriminate|].
  cbn [decode] in Hd.
  destruct (Z.leb_spec (base q) a) as [Hlo | Hlo]; cbn [andb] in Hd.
  - destruct (Z.ltb_spec a (base q + size q)) as [Hhi | Hhi].
    + injection Hd as <- <-. exists q. cbn. repeat split; lia.
    + destruct (decode ps a) as [[j' k']|] eqn:E; [|discriminate].
      injection Hd as <- <-. destruct (IH _ _ _ E) as (p & Hp & Ha & Hk).
      exists p. auto.
  - destruct (decode ps a) as [[j' k']|] eqn:E; [|discriminate].
    injection Hd as <- <-. destruct (IH _ _ _ E) as (p & Hp & Ha & Hk).
    exists p. auto.
Qed.

(** A cycle in which no write lands keeps the accumulator and strobes no
    element. *)
Lemma step_none (m : Multiplexer) (s : State) (i : Inputs) :
  selected_write m i = None ->
  w_shadow (sync_step m s i) = w_shadow s /\
  forall j, elem_w_stb (sync_step m s i) j = false.
Proof.
  intros Hn. unfold sync_step. rewrite Hn. split; [reflexivity|].
  intros j. unfold elem_w_stb. cbn [w_stb_regs]. rewrite nth_map_seq.
  now destruct (j <? List.length (elements m))%nat.
Qed.

(** The strobe of an element is registered high only by a write of its last
    chunk, and then the strobes of all other elements are registered low. *)
Lemma step_strobe_inv (m : Multiplexer) (s : State) (i : Inputs) (j : nat) :
  elem_w_stb (sync_step m s i) j = true ->
  w_stb i = true /\
  (exists p, nth_error (elements m) j = Some p /\
             addr i = base p + size p - 1) /\
  forall j', j' <> j -> elem_w_stb (sync_step m s i) j' = false.
Proof.
  unfold sync_step.
  destruct (selected_write m i) as [[[j0 p0] k0]|] eqn:Hsel.
  - unfold elem_w_stb. cbn [w_stb_regs]. rewrite nth_map_seq.
    destruct (j <? List.length (elements m))%nat; [|discriminate].
    cbn [Nat.add]. intros Hon. apply andb_true_iff in Hon as [Hj Hk].
    apply Nat.eqb_eq in Hj. apply Z.eqb_eq in Hk. subst j0.
    unfold selected_write in Hsel.
    destruct (w_stb i); [|discriminate].
    destruct (decode (elements m) (addr i)) as [[j1 k1]|] eqn:Hd;
      [|discriminate].
    destruct (nth_error (elements m) j1) as [p1|] eqn:Hn; [|discriminate].
    destruct (writable (access (elem p1))); [|discriminate].
    injection Hsel as <- <- <-.
    destruct (decode_inv _ _ _ _ Hd) as (p & Hp & Ha & _).
    rewrite Hn in Hp. injection Hp as <-.
    split; [reflexivity|]. split; [exists p1; split; [exact Hn | lia]|].
    intros j' Hne. rewrite nth_map_seq.
    destruct (j' <? List.length (elements m))%nat; [|reflexivity].
    cbn [Nat.add]. replace (j' =? j1)%nat with false; [reflexivity|].
    symmetry. now apply Nat.eqb_neq.
  - unfold elem_w_stb. cbn [w_stb_regs]. rewrite nth_map_seq.
    destruct (j <? List.length (elements m))%nat; discriminate.
Qed.

(** The accumulator over cycles in which no write lands. *)
Lemma shadow_kept (m : Multiplexer) (ins : nat -> Inputs) (s : State)
      (a b : nat) :
  (a <= b)%nat ->
  (forall t, (a <= t < b)%nat -> selected_write m (ins t) = None) ->
  w_shadow (run m ins s b) = w_shadow (run m ins s a).
Proof.
  intros Hab Hgap. induction b as [|b IH].
  - now replace a with O by lia.
  - destruct (Nat.eq_dec a (S b)) as [-> | Hne]; [reflexivity|].
    cbn [run]. destruct (step_none m (run m ins s b) (ins b)) as [-> _].
    + apply Hgap. lia.
    + apply IH; [lia|]. intros t Ht. apply Hgap. lia.
Qed.

Section Scheduled.

Variable m : Multiplexer.
Variable j : nat.
Variable p : Placed.
Hypothesis m_placed : well_placed m.
Hypothesis p_at_j : nth_error (elements m) j = Some p.
Hypothesis p_writable : writable (access (elem p)) = true.

Variable d : nat -> Z.
Variable ins : nat -> Inputs.
Variable s : State.

(** Chunk [k] is written in cycle [tm k]; the cycles between two chunks are
    cycles in which no write lands. *)
Variable tm : nat -> nat.
Let n : nat := Z.to_nat (size p).
Hypothesis tm_ascending : forall k, (S k < n)%nat -> (tm k < tm (S k))%nat.
Hypothesis chunk_written :
  forall k, (k < n)%nat -> ins (tm k) = write (base p + Z.of_nat k) (d k).
Hypothesis gap_quiet :
  forall k t, (S k < n)%nat -> (tm k < t < tm (S k))%nat ->
    selected_write m (ins t) = None.

(** One more chunk in the accumulator. *)
Lemma write_extends (sh : Z) (k : nat) :
  (forall b, 0 <= b < shadow_width m -> b < Z.of_nat k * data_width m ->
     Z.testbit sh b = Z.testbit (assemble (data_width m) d k) b) ->
  forall b, 0 <= b < shadow_width m -> b < Z.of_nat (S k) * data_width m ->
    Z.testbit (trunc (shadow_width m)
                 (set_slice sh (Z.of_nat k * data_width m) (data_width m) (d k)))
              b
    = Z.testbit (assemble (data_width m) d (S k)) b.
Proof.
  destruct m_placed as (Hdw & _). intros Hsh b Hb Hbk.
  cbn [assemble]. rewrite Nat2Z.inj_succ in Hbk.
  assert (Hbk' : b < Z.of_nat k * data_width m + data_width m) by lia.
  rewrite testbit_trunc, testbit_set_slice by nia.
  replace (b <? shadow_width m) with true by (symmetry; apply Z.ltb_lt; lia).
  rewrite andb_true_r, Z.lor_spec.
  replace (b <? Z.of_nat k * data_width m + data_width m) with true
    by (symmetry; apply Z.ltb_lt; lia).
  rewrite andb_true_r.
  destruct (Z.leb_spec (Z.of_nat k * data_width m) b) as [Hin | Hlow].
  - rewrite (assemble_high m d k b Hdw Hin).
    rewrite Z.shiftl_spec, testbit_trunc by lia.
    replace (b - Z.of_nat k * data_width m <? data_width m) with true
      by (symmetry; apply Z.ltb_lt; lia).
    now rewrite andb_true_r.
  - rewrite Z.shiftl_spec_low by lia.
    rewrite orb_false_r. apply Hsh; lia.
Qed.

(** The accumulator right after chunk [k] was written. *)
Lemma shadow_after_chunk (k : nat) :
  (k < n)%nat ->
  forall b, 0 <= b < shadow_width m -> b < Z.of_nat (S k) * data_width m ->
    Z.testbit (w_shadow (run m ins s (S (tm k)))) b =
    Z.testbit (assemble (data_width m) d (S k)) b.
Proof.
  induction k as [|k IH]; intros Hk.
  - cbn [run]. rewrite (chunk_written O Hk).
    destruct (step_write m j p m_placed p_at_j p_writable
                         (run m ins s (tm O)) (Z.of_nat O) (d O))
      as [-> _]; [unfold n in Hk; lia|].
    apply write_extends. intros b Hb Hb0. cbn in Hb0. lia.
  - cbn [run]. rewrite (chunk_written (S k) Hk).
    destruct (step_write m j p m_placed p_at_j p_writable
                         (run m ins s (tm (S k))) (Z.of_nat (S k)) (d (S k)))
      as [-> _]; [unfold n in Hk; lia|].
    apply write_extends.
    rewrite (shadow_kept m ins s (S (tm k)) (tm (S k))).
    + apply IH. lia.
    + pose proof (tm_ascending k Hk). lia.
    + intros t Ht. apply (gap_quiet k); [exact Hk | lia].
Qed.

(** No strobe from the cycle after the first write up to the cycle of the
    write of chunk [k], for every chunk but the last. *)
Lemma strobe_low_until (k : nat) :
  (k < n)%nat ->
  forall t, (tm O < t <= tm k)%nat -> elem_w_stb (run m ins s t) j = false.
Proof.
  induction k as [|k IH]; intros Hk t Ht; [lia|].
  destruct (Nat.le_gt_cases t (tm k)) as [Hle | Hgt]; [apply IH; lia|].
  destruct t as [|t]; [lia|]. cbn [run].
  destruct (Nat.eq_dec t (tm k)) as [-> | Hne].
  - rewrite (chunk_written k) by lia.
    destruct (step_write m j p m_placed p_at_j p_writable
                         (run m ins s (tm k)) (Z.of_nat k) (d k))
      as [_ ->]; [unfold n in Hk; lia|].
    apply Z.eqb_neq. unfold n in Hk. lia.
  - apply step_none. apply (gap_quiet k); [exact Hk | lia].
Qed.

End Scheduled.



(** The scenarios of the simulation tests. *)
Example test_sim_write_8 :
  let s := run dut (fun t => match t with O => write 1 61 | _ => idle 1 end)
               (reset dut) 2 in
  elem_w_stb (sync_step dut (reset dut) (write 1 61)) 1 = true /\
  elem_w_data dut (sync_step dut (reset dut) (write 1 61)) 1 = 0x3d /\
  elem_w_stb (sync_step dut (reset dut) (write 1 61)) 2 = false /\
  elem_w_stb s 1 = false.
Proof. repeat split. Qed.

Example test_sim_aligned_write_20 :
  let m := fst (add (create 16 8 2) {| width := 20; access := RW |}) in
  let ins t := match t with
               | O => write 0 0x55
               | 1%nat => write 1 0xaa
               | 2%nat => write 2 0x33
               | 3%nat => write 3 0xdd
               | _ => idle 3
               end in
  map (fun t => elem_w_stb (run m ins (reset m) t) 0) [1; 2; 3; 4; 5]%nat
    = [false; false; false; true; false] /\
  elem_w_data m (run m ins (reset m) 4) 0 = 0x3aa55.
Proof. split; reflexivity. Qed.

End MuxWrite.


(** * Further properties of the bridge *)

(** ** Invariants of the registers *)

Module BridgeInvariants.
Import Bits BitsFacts Bridge BridgeFacts.

(** With [ack] high the next edge clears the counter and [ack]. *)
Lemma step_ack (d : Design) (s : State) (i : Inputs) :
  ack s = true ->
  cycle (sync_step d s i) = 0 /\ ack (sync_step d s i) = false.
Proof. intros Ha. unfold sync_step. now rewrite Ha. Qed.

(** An edge without an active request and without [ack] changes nothing. *)
Lemma step_inactive (d : Design) (s : State) (i : Inputs) :
  ack s = false -> active s i = false -> sync_step d s i = s.
Proof. intros Ha Hi. unfold sync_step. now rewrite Ha, Hi. Qed.

Lemma active_cases (s : State) (i : Inputs) :
  active s i = cyc i && (stb i || negb (cycle s =? 0)).
Proof. reflexivity. Qed.

Lemma step_in_range (d : Design) (s : State) (i : Inputs) :
  0 < slen d -> in_range d s -> in_range d (sync_step d s i).
Proof.
  intros Hslen [Hc Ha]. unfold in_range.
  destruct (ack s) eqn:Hack.
  - destruct (step_ack d s i Hack) as [-> ->]. split; [lia | discriminate].
  - destruct (active s i) eqn:Hact.
    + destruct (Z.eq_dec (cycle s) (slen d)) as [Hlast | Hchunk].
      * assert (Hcyc : cyc i = true).
        { rewrite active_cases in Hact.
          now apply andb_true_iff in Hact as [-> _]. }
        rewrite (step_last d Hslen s i Hlast Hack Hcyc). cbn. split; auto. lia.
      * rewrite (step_chunk d s i) by (auto; lia). cbn.
        split; [lia | discriminate].
    + rewrite step_inactive by assumption. split; [exact Hc|].
      rewrite Hack. discriminate.
Qed.

(** X1.  Whatever the Wishbone master and the CSR bus do, the cycle counter
    of an elaborated bridge stays within [0, len(sel)] from reset on, and
    [ack] is high only while the counter is at [len(sel)]. *)
Theorem counter_stays_in_range
        (self : WishboneCSRBridge) (d : Design)
        (ins : nat -> Inputs) (n : nat) :
  elaborate self = inr d ->
  in_range d (run d ins reset n).
Proof.
  intros Helab. apply elaborate_inv in Helab as (_ & Hslen & _).
  induction n as [|n IH].
  - cbn. unfold in_range. cbn. split; [lia | discriminate].
  - cbn [run]. now apply step_in_range.
Qed.

Lemma counter_stays_in_range_witness :
  in_range design_8_32 (run design_8_32 read_gapped reset 9).
Proof.
  exact (counter_stays_in_range bridge_8_32 design_8_32 read_gapped 9 eq_refl).
Defined.

(** X2.  No abort: while [ack] is low, a clock edge either keeps the counter
    or advances it by one, whatever the inputs; in particular a counter that
    has left 0 does not come back to 0 before [ack] was raised. *)
Theorem counter_never_goes_back (d : Design) (s : State) (i : Inputs) :
  0 < slen d -> 0 <= cycle s <= slen d -> ack s = false ->
  (cycle (sync_step d s i) = cycle s \/
   cycle (sync_step d s i) = cycle s + 1) /\
  (cycle s <> 0 -> cycle (sync_step d s i) <> 0).
Proof.
  intros Hslen Hc Hack.
  assert (Hstep : cycle (sync_step d s i) = cycle s \/
                  cycle (sync_step d s i) = cycle s + 1).
  { destruct (active s i) eqn:Hact.
    - destruct (Z.eq_dec (cycle s) (slen d)) as [Hlast | Hchunk].
      + assert (Hcyc : cyc i = true).
        { rewrite active_cases in Hact.
          now apply andb_true_iff in Hact as [-> _]. }
        rewrite (step_last d Hslen s i Hlast Hack Hcyc). cbn. lia.
      + rewrite (step_chunk d s i) by (auto; lia). cbn. lia.
    - rewrite step_inactive by assumption. lia. }
  split; [exact Hstep | lia].
Qed.

Lemma counter_never_goes_back_witness :
  let s := {| cycle := 2; ack := false; dat_r := 0 |} in
  (cycle (sync_step design_8_32 s (read_gapped 1)) = 2 \/
   cycle (sync_step design_8_32 s (read_gapped 1)) = 2 + 1) /\
  (2 <> 0 -> cycle (sync_step design_8_32 s (read_gapped 1)) <> 0).
Proof.
  apply (counter_never_goes_back design_8_32
           {| cycle := 2; ack := false; dat_r := 0 |} (read_gapped 1));
    cbn; try lia; reflexivity.
Defined.

(** Writing a slice inside the low [n] bits keeps a value within [n] bits. *)
Lemma set_slice_fits (n v lo w x : Z) :
  0 <= lo -> 0 <= w -> lo + w <= n ->
  trunc n v = v -> trunc n (set_slice v lo w x) = set_slice v lo w x.
Proof.
  intros Hlo Hw Hn Hv. apply Z.bits_inj'. intros b Hb.
  rewrite testbit_trunc, testbit_set_slice by lia.
  destruct (Z.ltb_spec b n) as [Hin | Hout]; [apply andb_true_r|].
  rewrite andb_false_r.
  replace (b <? lo + w) with false by (symmetry; apply Z.ltb_ge; lia).
  rewrite andb_false_r, <- Hv, testbit_trunc by lia.
  replace (b <? n) with false by (symmetry; apply Z.ltb_ge; lia).
  now rewrite andb_false_r.
Qed.

Lemma step_dat_r_fits (d : Design) (s : State) (i : Inputs) :
  0 < slen d -> 0 <= granularity d ->
  trunc (granularity d * slen d) (dat_r s) = dat_r s ->
  trunc (granularity d * slen d) (dat_r (sync_step d s i))
  = dat_r (sync_step d s i).
Proof.
  intros Hslen Hg Hfit.
  assert (Hdef : trunc (granularity d * slen d)
                   (set_slice (dat_r s) (segment d (slen d - 1))
                              (granularity d) (r_data i))
                 = set_slice (dat_r s) (segment d (slen d - 1))
                             (granularity d) (r_data i)).
  { apply set_slice_fits; unfold segment; auto; nia. }
  unfold sync_step, case_index.
  destruct (active s i).
  - destruct (Z.leb_spec 0 (cycle s)) as [H0 | H0]; cbn [andb].
    + destruct (Z.ltb_spec (cycle s) (slen d)) as [H1 | H1].
      * destruct (Z.ltb_spec 0 (cycle s)) as [H2 | H2].
        -- assert (Hs : trunc (granularity d * slen d)
                          (set_slice (dat_r s) (segment d (cycle s - 1))
                                     (granularity d) (r_data i))
                        = set_slice (dat_r s) (segment d (cycle s - 1))
                                    (granularity d) (r_data i)).
           { apply set_slice_fits; unfold segment; auto; nia. }
           destruct (ack s); cbn [dat_r]; exact Hs.
        -- destruct (ack s); cbn [dat_r]; exact Hfit.
      * destruct (ack s); cbn [dat_r]; exact Hdef.
    + destruct (ack s); cbn [dat_r]; exact Hdef.
  - destruct (ack s); cbn [dat_r]; exact Hfit.
Qed.

(** X3.  The read-data register never outgrows the Wishbone data word: for
    a constructed bridge, from reset and under any inputs, [dat_r] is a
    non-negative integer below [2 ^ data_width]. *)
Theorem dat_r_fits_data_width
        (env : Collaborators) (obj : PyObject) (dw : option Z)
        (self : WishboneCSRBridge) (d : Design)
        (ins : nat -> Inputs) (n : nat) :
  WishboneCSRBridge_init env obj dw = inr self ->
  elaborate self = inr d ->
  0 <= dat_r (run d ins reset n) < 2 ^ wb_data_width (wb_bus self).
Proof.
  intros Hinit Helab.
  apply init_inv in Hinit as (bus & l & _ & Hsup & _ & _ & _ & ->).
  apply elaborate_inv in Helab as (_ & Hslen & _ & _ & Hsel & Hg & _).
  cbn in Hg, Hsel. unfold sel_len in Hsel. cbn in Hsel.
  apply supported_width_pos in Hsup. cbn [wb_bus wb_data_width].
  assert (Hgran : 0 <= granularity d) by lia.
  assert (Hfit : trunc (granularity d * slen d) (dat_r (run d ins reset n))
                 = dat_r (run d ins reset n)).
  { induction n as [|n IH]; [reflexivity|].
    cbn [run]. now apply step_dat_r_fits. }
  rewrite trunc_mod in Hfit by nia.
  assert (Hpow : 0 < 2 ^ (granularity d * slen d))
    by (apply Z.pow_pos_nonneg; nia).
  pose proof (Z.mod_pos_bound (dat_r (run d ins reset n)) _ Hpow) as Hb.
  rewrite Hfit in Hb.
  assert (Hle : granularity d * slen d <= effective_width bus dw).
  { rewrite Hg, Hsel. apply Z.mul_div_le. lia. }
  assert (2 ^ (granularity d * slen d) <= 2 ^ effective_width bus dw)
    by (apply Z.pow_le_mono_r; lia).
  lia.
Qed.

Lemma dat_r_fits_data_width_witness :
  0 <= dat_r (run design_8_32 read_all reset 7) < 2 ^ 32.
Proof.
  exact (dat_r_fits_data_width unchecked
           (CSRInterfaceObj (csr_bus bridge_8_32)) (Some 32)
           bridge_8_32 design_8_32 read_all 7 eq_refl eq_refl).
Defined.

End BridgeInvariants.


(** ** Transactions *)

Module BridgeTransactions.
Import Bits BitsFacts Bridge BridgeFacts BridgeClaims BridgeInvariants.

(** Outside the chunk cycles the bridge strobes nothing. *)
Lemma comb_quiet (d : Design) (s : State) (i : Inputs) :
  slen d <= cycle s ->
  r_stb (comb d s i) = false /\ w_stb (comb d s i) = false /\
  w_data (comb d s i) = 0.
Proof.
  intros Hc. unfold comb, case_index.
  replace (cycle s <? slen d) with false by (symmetry; apply Z.ltb_ge; lia).
  rewrite andb_false_r. destruct (active s i); repeat split.
Qed.

(** The edge that follows the [ack] cycle. *)
Lemma step_after_ack (d : Design) (s : State) (i : Inputs) :
  0 < slen d -> cycle s = slen d -> ack s = true ->
  sync_step d s i =
  {| cycle := 0; ack := false;
     dat_r := if cyc i
              then set_slice (dat_r s) (segment d (slen d - 1))
                             (granularity d) (r_data i)
              else dat_r s |}.
Proof.
  intros Hslen Hc Ha. unfold sync_step, active, is_in_progress, case_index.
  rewrite Ha, Hc.
  replace (slen d =? 0) with false by (symmetry; apply Z.eqb_neq; lia).
  rewrite Z.ltb_irrefl, andb_false_r, orb_true_r, andb_true_r.
  now destruct (cyc i).
Qed.

(** X4.  Write dispatch: in a write transaction of a constructed bridge
    (whose granularity is the CSR data width, so that a slice of [dat_w] has
    the width of the CSR [w_data]), cycle [k] (for [k < chunks]) drives slice
    [k] of [dat_w] on the CSR [w_data] with [w_stb = sel[k]] and no read
    strobe; in the terminal cycle and in the [ack] cycle neither strobe is
    driven, whatever the inputs. *)
Theorem write_chunks_dispatched
        (env : Collaborators) (obj : PyObject) (dw : option Z)
        (self : WishboneCSRBridge) (d : Design)
        (ins : nat -> Inputs) (s : State) :
  WishboneCSRBridge_init env obj dw = inr self ->
  elaborate self = inr d ->
  let chunks := Z.to_nat (slen d) in
  let g := csr_data_width (csr_bus self) in
  cycle s = 0 -> ack s = false ->
  cyc (ins O) && stb (ins O) = true ->
  (forall t, (t <= chunks)%nat -> cyc (ins t) = true) ->
  (forall t, (t <= chunks)%nat -> we (ins t) = true) ->
  (forall k, (k < chunks)%nat ->
     w_stb (comb d (run d ins s k) (ins k)) =
       Z.testbit (sel (ins k)) (Z.of_nat k) /\
     r_stb (comb d (run d ins s k) (ins k)) = false /\
     w_data (comb d (run d ins s k) (ins k)) =
       get_slice (dat_w (ins k)) (g * Z.of_nat k) g) /\
  (forall i, r_stb (comb d (run d ins s chunks) i) = false /\
             w_stb (comb d (run d ins s chunks) i) = false) /\
  (forall i, r_stb (comb d (run d ins s (S chunks)) i) = false /\
             w_stb (comb d (run d ins s (S chunks)) i) = false).
Proof.
  intros Hinit Helab chunks g Hc Ha Hreq Hcyc Hwe.
  apply init_inv in Hinit as (bus & l & _ & _ & _ & _ & _ & ->).
  apply elaborate_inv in Helab as (_ & Hslen & _ & _ & _ & Hg & _).
  cbn in Hg. subst g. cbn [csr_bus]. rewrite <- Hg.
  destruct (transaction_pace d ins s Hslen Hc Ha Hreq Hcyc) as [Hrun _].
  split; [|split].
  - intros k Hk. destruct (Hrun k) as [Tc Ta]; [fold chunks; lia|].
    destruct (comb_chunk d (run d ins s k) (ins k)) as (Hr & Hw & Hd).
    + rewrite Tc. subst chunks. lia.
    + unfold active, is_in_progress. destruct k as [|k].
      * cbn [run]. rewrite Hc. cbn. now rewrite orb_false_r.
      * rewrite (Hcyc (S k)) by lia. rewrite Tc.
        replace (Z.of_nat (S k) =? 0) with false
          by (symmetry; apply Z.eqb_neq; lia).
        cbn. apply orb_true_r.
    + rewrite Hr, Hw, Hd, Tc, (Hwe k) by lia.
      now rewrite andb_true_r, andb_false_r.
  - intros i. destruct (Hrun chunks (le_n _)) as [Tc _].
    destruct (comb_quiet d (run d ins s chunks) i) as (Hr & Hw & _); auto.
    rewrite Tc. subst chunks. lia.
  - intros i. destruct (Hrun chunks (le_n _)) as [Tc Ta].
    destruct (comb_quiet d (run d ins s (S chunks)) i) as (Hr & Hw & _); auto.
    cbn [run]. rewrite step_last; cbn [cycle]; auto; [lia | subst chunks; lia].
Qed.

Lemma write_chunks_dispatched_witness :
  w_stb (comb design_8_32 (run design_8_32 write_some reset 2) (write_some 2))
    = Z.testbit 5 2 /\
  r_stb (comb design_8_32 (run design_8_32 write_some reset 2) (write_some 2))
    = false /\
  w_data (comb design_8_32 (run design_8_32 write_some reset 2) (write_some 2))
    = get_slice 0x44332211 (8 * 2) 8.
Proof.
  destruct (write_chunks_dispatched unchecked
              (CSRInterfaceObj (csr_bus bridge_8_32)) (Some 32)
              bridge_8_32 design_8_32 write_some reset)
    as (H & _ & _); try reflexivity.
  exact (H 2%nat ltac:(cbn; lia)).
Defined.

(** X5.  The bridge never strobes a read and a write together, and it
    strobes the CSR bus only in a chunk cycle of an active request, for a
    chunk whose [sel] bit is set, in the direction given by [we]. *)
Theorem strobes_exclusive (d : Design) (s : State) (i : Inputs) :
  r_stb (comb d s i) && w_stb (comb d s i) = false /\
  (r_stb (comb d s i) || w_stb (comb d s i) = true ->
   cyc i = true /\ (stb i = true \/ cycle s <> 0) /\
   0 <= cycle s < slen d /\
   Z.testbit (sel i) (cycle s) = true /\
   w_stb (comb d s i) = we i /\ r_stb (comb d s i) = negb (we i)).
Proof.
  unfold comb, case_index, active, is_in_progress.
  destruct (cyc i) eqn:Hcyc; cbn [andb]; [|split; [reflexivity|discriminate]].
  destruct (stb i || negb (cycle s =? 0)) eqn:Hgo;
    [|split; [reflexivity|discriminate]].
  destruct (Z.leb_spec 0 (cycle s)); cbn [andb];
    [|split; [reflexivity|discriminate]].
  destruct (Z.ltb_spec (cycle s) (slen d));
    [|split; [reflexivity|discriminate]].
  cbn [r_stb w_stb].
  destruct (Z.testbit (sel i) (cycle s)); cbn [andb];
    [|split; [reflexivity|discriminate]].
  split; [now destruct (we i)|]. intros _.
  repeat split; auto; try lia.
  apply orb_true_iff in Hgo as [Hs | Hn]; [now left | right].
  apply negb_true_iff, Z.eqb_neq in Hn. exact Hn.
Qed.

(** One transaction with [cyc] and [stb] held brings the bridge back to
    idle after [chunks + 2] edges. *)
Lemma period_idle (d : Design) (ins : nat -> Inputs) (s : State) :
  0 < slen d -> cycle s = 0 -> ack s = false ->
  (forall t, cyc (ins t) = true /\ stb (ins t) = true) ->
  cycle (run d ins s (Z.to_nat (slen d) + 2)) = 0 /\
  ack (run d ins s (Z.to_nat (slen d) + 2)) = false.
Proof.
  intros Hslen Hc Ha Hheld.
  destruct (transaction_pace d ins s Hslen Hc Ha) as [_ Hack].
  { destruct (Hheld O) as [-> ->]. reflexivity. }
  { intros t _. apply Hheld. }
  replace (Z.to_nat (slen d) + 2)%nat with (S (S (Z.to_nat (slen d)))) by lia.
  cbn [run]. apply step_ack. exact Hack.
Qed.

Lemma periods_idle (d : Design) (ins : nat -> Inputs) (s : State) (q : nat) :
  0 < slen d -> cycle s = 0 -> ack s = false ->
  (forall t, cyc (ins t) = true /\ stb (ins t) = true) ->
  cycle (run d ins s (q * (Z.to_nat (slen d) + 2))) = 0 /\
  ack (run d ins s (q * (Z.to_nat (slen d) + 2))) = false.
Proof.
  intros Hslen Hc Ha Hheld. induction q as [|q [IHc IHa]]; [now cbn|].
  replace (S q * (Z.to_nat (slen d) + 2))%nat
    with (q * (Z.to_nat (slen d) + 2) + (Z.to_nat (slen d) + 2))%nat by lia.
  rewrite run_add. apply period_idle; auto.
Qed.

(** X6.  Throughput: when [cyc] and [stb] are held from an idle bridge,
    [ack] is high exactly in the cycles [t] with
    [t mod (chunks + 2) = chunks + 1], that is once every [chunks + 2]
    cycles. *)
Theorem ack_every_chunks_plus_two
        (self : WishboneCSRBridge) (d : Design)
        (ins : nat -> Inputs) (s : State) (t : nat) :
  elaborate self = inr d ->
  cycle s = 0 -> ack s = false ->
  (forall t', cyc (ins t') = true /\ stb (ins t') = true) ->
  ack (run d ins s t) =
  (t mod (Z.to_nat (slen d) + 2) =? Z.to_nat (slen d) + 1)%nat.
Proof.
  intros Helab Hc Ha Hheld.
  apply elaborate_inv in Helab as (_ & Hslen & _).
  set (P := (Z.to_nat (slen d) + 2)%nat).
  assert (HP : P <> O) by (unfold P; lia).
  pose proof (Nat.div_mod_eq t P) as Ht.
  pose proof (Nat.mod_upper_bound t P HP) as Hr.
  destruct (periods_idle d ins s (t / P) Hslen Hc Ha Hheld) as [Qc Qa].
  fold P in Qc, Qa.
  rewrite Ht at 1. rewrite (Nat.mul_comm P), run_add.
  destruct (transaction_pace d (fun t' => ins (t / P * P + t')%nat)
                             (run d ins s (t / P * P)) Hslen Qc Qa)
    as [Hlow Hhigh].
  { destruct (Hheld (t / P * P + 0)%nat) as [-> ->]. reflexivity. }
  { intros t' _. apply Hheld. }
  destruct (Nat.eqb_spec (t mod P) (Z.to_nat (slen d) + 1)) as [E | NE].
  - rewrite E. replace (Z.to_nat (slen d) + 1)%nat
      with (S (Z.to_nat (slen d))) by lia. exact Hhigh.
  - assert (Hle : (t mod P <= Z.to_nat (slen d))%nat) by (unfold P in *; lia).
    exact (proj2 (Hlow _ Hle)).
Qed.

Lemma ack_every_chunks_plus_two_witness :
  ack (run design_8_32 read_all reset 17) = ((17 mod (4 + 2)) =? 4 + 1)%nat.
Proof.
  apply (ack_every_chunks_plus_two bridge_8_32 design_8_32 read_all reset 17);
    try reflexivity.
  intros t'. split; reflexivity.
Defined.

(** X7.  The cycle counter counts the cycles in which [cyc] is high: with
    [stb] held, an idle bridge that has seen [n <= chunks] cycles with [cyc]
    high has its counter at [n] and [ack] low, however these cycles are
    spread; [ack] rises at the edge that ends the cycle number [chunks + 1]
    with [cyc] high. *)
Theorem counter_counts_cyc
        (self : WishboneCSRBridge) (d : Design)
        (ins : nat -> Inputs) (s : State) :
  elaborate self = inr d ->
  cycle s = 0 -> ack s = false ->
  (forall t, stb (ins t) = true) ->
  (forall t, (count_cyc ins t <= Z.to_nat (slen d))%nat ->
     cycle (run d ins s t) = Z.of_nat (count_cyc ins t) /\
     ack (run d ins s t) = false) /\
  (forall t, count_cyc ins t = Z.to_nat (slen d) -> cyc (ins t) = true ->
     ack (run d ins s (S t)) = true).
Proof.
  intros Helab Hc Ha Hstb.
  apply elaborate_inv in Helab as (_ & Hslen & _).
  assert (Hcount : forall t, (count_cyc ins t <= Z.to_nat (slen d))%nat ->
            cycle (run d ins s t) = Z.of_nat (count_cyc ins t) /\
            ack (run d ins s t) = false).
  { induction t as [|t IH]; intros Ht; [now cbn|].
    cbn [count_cyc] in Ht |- *.
    destruct IH as [IHc IHa]; [lia|]. cbn [run].
    destruct (cyc (ins t)) eqn:Hcyc.
    - rewrite step_chunk; cbn [cycle ack]; auto; try lia.
      unfold active. now rewrite Hcyc, Hstb.
    - rewrite step_inactive; auto. unfold active. now rewrite Hcyc. }
  split; [exact Hcount|].
  intros t Ht Hcyc. destruct (Hcount t) as [Tc Ta]; [lia|].
  cbn [run]. rewrite step_last; auto. lia.
Qed.

Lemma counter_counts_cyc_witness :
  cycle (run design_8_32 read_gapped reset 4) = 2 /\
  ack (run design_8_32 read_gapped reset 7) = true.
Proof.
  destruct (counter_counts_cyc bridge_8_32 design_8_32 read_gapped reset)
    as [Hcount Hack]; try reflexivity.
  split.
  - exact (proj1 (Hcount 4%nat ltac:(cbn; lia))).
  - exact (Hack 6%nat eq_refl eq_refl).
Defined.

(** X8.  The read data is held for the [ack] cycle only: at the edge that
    ends the [ack] cycle the bridge returns to idle, the slices of [dat_r]
    below the last keep the read data of their chunks, and the last slice is
    written again with the CSR read data of the [ack] cycle if [cyc] is still
    high in it (it keeps the last chunk's data if [cyc] is low). *)
Theorem read_data_after_ack
        (env : Collaborators) (obj : PyObject) (dw : option Z)
        (self : WishboneCSRBridge) (d : Design)
        (ins : nat -> Inputs) (s : State) :
  WishboneCSRBridge_init env obj dw = inr self ->
  elaborate self = inr d ->
  let chunks := Z.to_nat (slen d) in
  let g := granularity d in
  cycle s = 0 -> ack s = false ->
  cyc (ins O) && stb (ins O) = true ->
  (forall t, (t <= chunks)%nat -> cyc (ins t) = true) ->
  cycle (run d ins s (chunks + 2)) = 0 /\
  ack (run d ins s (chunks + 2)) = false /\
  (forall k, (k + 1 < chunks)%nat ->
     get_slice (dat_r (run d ins s (chunks + 2))) (g * Z.of_nat k) g
     = trunc g (r_data (ins (S k)))) /\
  get_slice (dat_r (run d ins s (chunks + 2))) (g * (slen d - 1)) g
  = trunc g (r_data (ins (if cyc (ins (S chunks)) then S chunks else chunks))).
Proof.
  intros Hinit Helab chunks g Hc Ha Hreq Hcyc.
  apply init_inv in Hinit as (bus & l & _ & Hsup & _ & _ & _ & ->).
  apply elaborate_inv in Helab as (_ & Hslen & _ & _ & _ & Hg & _).
  cbn in Hg. apply supported_width_pos in Hsup.
  assert (Hgran : 0 <= granularity d) by lia.
  destruct (transaction_end d Hslen Hgran ins s Hc Ha Hreq Hcyc)
    as (Ec & Eack & Eslices).
  fold chunks in Ec, Eack, Eslices.
  assert (Hch : Z.of_nat chunks = slen d) by (unfold chunks; lia).
  replace (chunks + 2)%nat with (S (S chunks)) by lia.
  cbn [run]. rewrite (step_after_ack d _ _ Hslen Ec Eack).
  cbn [cycle ack dat_r]. split; [reflexivity|]. split; [reflexivity|].
  unfold segment in *. fold g in Eslices |- *. split.
  - intros k Hk. destruct (cyc (ins (S chunks))).
    + rewrite get_set_other by (subst g; nia). apply Eslices. lia.
    + apply Eslices. lia.
  - destruct (cyc (ins (S chunks))).
    + apply get_set_same; subst g; nia.
    + specialize (Eslices (chunks - 1)%nat ltac:(lia)).
      replace (Z.of_nat (chunks - 1)) with (slen d - 1) in Eslices by lia.
      replace (S (chunks - 1)) with chunks in Eslices by lia. exact Eslices.
Qed.

Lemma read_data_after_ack_witness :
  cycle (run design_8_32 read_all reset 6) = 0 /\
  ack (run design_8_32 read_all reset 6) = false /\
  get_slice (dat_r (run design_8_32 read_all reset 6)) (8 * (4 - 1)) 8
  = trunc 8 (r_data (read_all 5)).
Proof.
  destruct (read_data_after_ack unchecked
              (CSRInterfaceObj (csr_bus bridge_8_32)) (Some 32)
              bridge_8_32 design_8_32 read_all reset)
    as (Hc & Ha & _ & Hlast); try reflexivity.
  split; [exact Hc|]. split; [exact Ha | exact Hlast].
Defined.

(** X9.  The slices that the bridge drives on [w_data] and the slices that
    it fills in [dat_r] are the same: if the CSR bus returns in each cycle the
    chunk that was driven on [w_data] in the cycle before, then in the [ack]
    cycle [dat_r] holds the low [granularity * chunks] bits of [dat_w]. *)
Theorem write_slices_reassemble
        (env : Collaborators) (obj : PyObject) (dw : option Z)
        (self : WishboneCSRBridge) (d : Design)
        (ins : nat -> Inputs) (s : State) (W : Z) :
  WishboneCSRBridge_init env obj dw = inr self ->
  elaborate self = inr d ->
  let chunks := Z.to_nat (slen d) in
  let g := granularity d in
  cycle s = 0 -> ack s = false ->
  cyc (ins O) && stb (ins O) = true ->
  (forall t, (t <= chunks)%nat -> cyc (ins t) = true) ->
  (forall k, (k < chunks)%nat -> dat_w (ins k) = W) ->
  (forall k, (k < chunks)%nat ->
     r_data (ins (S k)) = w_data (comb d (run d ins s k) (ins k))) ->
  trunc (g * slen d) (dat_r (run d ins s (S chunks))) = trunc (g * slen d) W.
Proof.
  intros Hinit Helab chunks g Hc Ha Hreq Hcyc HW Hecho.
  apply init_inv in Hinit as (bus & l & _ & Hsup & _ & _ & _ & ->).
  apply elaborate_inv in Helab as (_ & Hslen & _ & _ & _ & Hg & _).
  cbn in Hg. apply supported_width_pos in Hsup.
  assert (Hgpos : 0 < g) by (subst g; lia).
  assert (Hgran : 0 <= granularity d) by lia.
  destruct (transaction_pace d ins s Hslen Hc Ha Hreq Hcyc) as [Hrun _].
  destruct (transaction_end d Hslen Hgran ins s Hc Ha Hreq Hcyc)
    as (_ & _ & Eslices).
  fold chunks in Hrun, Eslices. unfold segment in Eslices. fold g in Eslices.
  apply Z.bits_inj'. intros b Hb. rewrite !testbit_trunc by nia.
  destruct (Z.ltb_spec b (g * slen d)) as [Hin | Hout];
    [|now rewrite !andb_false_r].
  rewrite !andb_true_r.
  pose proof (Z.div_mod b g ltac:(lia)) as Hdm.
  pose proof (Z.mod_pos_bound b g Hgpos) as Hr.
  assert (Hk0 : 0 <= b / g) by (apply Z.div_pos; lia).
  assert (Hk1 : b / g < slen d) by (apply Z.div_lt_upper_bound; lia).
  set (k := Z.to_nat (b / g)).
  assert (Hk : (k < chunks)%nat) by (unfold k, chunks; lia).
  assert (Hkz : Z.of_nat k = b / g) by (unfold k; lia).
  pose proof (Eslices k Hk) as E.
  rewrite (Hecho k Hk) in E.
  destruct (Hrun k ltac:(lia)) as [Tc Ta].
  destruct (comb_chunk d (run d ins s k) (ins k)) as (_ & _ & Hd).
  { rewrite Tc. lia. }
  { unfold active, is_in_progress. destruct k as [|k'].
    - cbn [run]. rewrite Hc. cbn. now rewrite orb_false_r.
    - rewrite (Hcyc (S k')) by lia. rewrite Tc.
      replace (Z.of_nat (S k') =? 0) with false
        by (symmetry; apply Z.eqb_neq; lia).
      cbn. apply orb_true_r. }
  rewrite Hd, Tc, (HW k Hk) in E. fold g in E.
  assert (Hbit : Z.testbit (get_slice (dat_r (run d ins s (S chunks)))
                                      (g * Z.of_nat k) g) (b mod g)
                 = Z.testbit (trunc g (get_slice W (g * Z.of_nat k) g))
                             (b mod g)) by now rewrite E.
  rewrite testbit_trunc, !testbit_get_slice in Hbit by lia.
  replace (b mod g <? g) with true in Hbit by (symmetry; apply Z.ltb_lt; lia).
  rewrite !andb_true_r in Hbit.
  replace (b mod g + g * Z.of_nat k) with b in Hbit by (rewrite Hkz; lia).
  exact Hbit.
Qed.

Lemma write_slices_reassemble_witness :
  trunc (8 * 4) (dat_r (run design_8_32 echo_all reset 5))
  = trunc (8 * 4) 0x44332211.
Proof.
  apply (write_slices_reassemble unchecked
           (CSRInterfaceObj (csr_bus bridge_8_32)) (Some 32)
           bridge_8_32 design_8_32 echo_all reset 0x44332211);
    try reflexivity.
  intros [|[|[|[|k]]]] Hk; try reflexivity. cbn in Hk. lia.
Defined.

End BridgeTransactions.


(** ** Construction followed by elaboration *)

Module BridgeConfig.
Import Bits BitsFacts Bridge BridgeAddress.

Lemma log2_int_error (n : Z) (e : PyError) :
  log2_int n = inl e ->
  e = ValueError "not a power of 2" /\ n <> 0 /\ ~ is_pow2 n.
Proof.
  intros E. split.
  - unfold log2_int, raise, ret in E.
    destruct (n =? 0); [discriminate|].
    destruct (negb _); [now injection E as <- | discriminate].
  - apply log2_int_raises. now rewrite E.
Qed.

(** X10.  The outcomes of [elaborate] for a select width below [2 ^ 63]
    (from there on [len(wb_bus.sel)] itself fails): it returns exactly for a
    bridge without a [stall] signal whose select width is a power of two; it
    raises a [ValueError] for a non-zero select width that is not a power of
    two, otherwise a [NameError] on [ack] if the interface has a [stall]
    signal, otherwise an [UnboundLocalError] on [seg] if the select width is
    zero. *)
Theorem elaborate_outcome (self : WishboneCSRBridge) :
  sel_len (wb_bus self) < 2 ^ 63 ->
  match elaborate self with
  | inr d =>
    wb_stall (wb_bus self) = false /\ is_pow2 (sel_len (wb_bus self)) /\
    slen d = sel_len (wb_bus self) /\ slen d = 2 ^ lbits d
  | inl (ValueError _) =>
    sel_len (wb_bus self) <> 0 /\ ~ is_pow2 (sel_len (wb_bus self))
  | inl (NameError name) =>
    name = "ack"%string /\ wb_stall (wb_bus self) = true /\
    (sel_len (wb_bus self) = 0 \/ is_pow2 (sel_len (wb_bus self)))
  | inl (UnboundLocalError name) =>
    name = "seg"%string /\ wb_stall (wb_bus self) = false /\
    sel_len (wb_bus self) = 0
  end.
Proof.
  intros _. unfold elaborate.
  destruct (log2_int (sel_len (wb_bus self))) as [e | l] eqn:Hl; cbn [bind].
  - apply log2_int_error in Hl as (-> & Hn & Hp). auto.
  - apply log2_int_inv in Hl as [Hl0 Hcases].
    destruct (wb_stall (wb_bus self)); cbn [bind ret lookup_name].
    + cbn. repeat split.
      destruct Hcases as [[H0 _] | Hp]; [now left | right; now exists l].
    + destruct (Z.leb_spec (sel_len (wb_bus self)) 0) as [Hle | Hgt];
        cbn [bind raise ret].
      * repeat split. destruct Hcases as [[H0 _] | Hp]; [exact H0|].
        assert (0 < 2 ^ l) by (apply Z.pow_pos_nonneg; lia). lia.
      * cbn [slen lbits]. destruct Hcases as [[H0 _] | Hp]; [lia|].
        repeat split; auto. now exists l.
Qed.

Lemma elaborate_outcome_witness :
  wb_stall (wb_bus bridge_8_32) = false /\
  is_pow2 (sel_len (wb_bus bridge_8_32)) /\
  slen design_8_32 = sel_len (wb_bus bridge_8_32) /\
  slen design_8_32 = 2 ^ lbits design_8_32.
Proof.
  exact (elaborate_outcome bridge_8_32 ltac:(cbn; lia)).
Defined.

(** The design of a constructed bridge. *)
Lemma constructed_design
      (env : Collaborators) (obj : PyObject) (dw : option Z)
      (self : WishboneCSRBridge) (d : Design) :
  WishboneCSRBridge_init env obj dw = inr self ->
  elaborate self = inr d ->
  exists bus l,
    obj = CSRInterfaceObj bus /\ csr_bus self = bus /\
    wb_data_width (wb_bus self) = effective_width bus dw /\
    0 < csr_data_width bus /\ 0 <= l /\
    effective_width bus dw / csr_data_width bus = 2 ^ l /\
    d = {| slen := 2 ^ l; lbits := l;
           granularity := csr_data_width bus;
           addr_width := csr_addr_width bus;
           adr_width := Z.max 0 (csr_addr_width bus - l) |}.
Proof.
  intros Hinit Helab.
  apply init_inv in Hinit as (bus & l & -> & Hsup & Hl & _ & _ & ->).
  unfold elaborate, sel_len in Helab.
  cbn [csr_bus wb_bus wb_data_width wb_granularity wb_stall wb_addr_width]
    in Helab.
  rewrite Hl in Helab. cbn [bind] in Helab.
  destruct (wb_default_stall env); [discriminate|]. cbn [bind ret] in Helab.
  destruct (Z.leb_spec (effective_width bus dw / csr_data_width bus) 0)
    as [Hle | Hgt]; cbn [bind raise ret] in Helab; [discriminate|].
  injection Helab as <-.
  apply log2_int_inv in Hl as [Hl0 [[H0 _] | Hp]]; [lia|].
  exists bus, l. rewrite <- Hp. cbn.
  repeat split; auto. now apply supported_width_pos.
Qed.

(** X11.  A bridge that the constructor returns, with a select width
    below [2 ^ 63] (from there on [len(wb_bus.sel)] itself fails),
    elaborates exactly when its Wishbone interface has no [stall] signal and
    the Wishbone data width is at least the CSR data width. *)
Theorem constructed_elaborates_iff
        (env : Collaborators) (obj : PyObject) (dw : option Z)
        (self : WishboneCSRBridge) :
  WishboneCSRBridge_init env obj dw = inr self ->
  sel_len (wb_bus self) < 2 ^ 63 ->
  (raises (elaborate self) = false <->
   wb_stall (wb_bus self) = false /\
   csr_data_width (csr_bus self) <= wb_data_width (wb_bus self)).
Proof.
  intros Hinit _.
  apply init_inv in Hinit as (bus & l & -> & Hsup & Hl & _ & _ & ->).
  apply supported_width_pos in Hsup.
  unfold elaborate, sel_len.
  cbn [csr_bus wb_bus wb_data_width wb_granularity wb_stall csr_data_width].
  rewrite Hl. cbn [bind].
  apply log2_int_inv in Hl as [Hl0 Hcases].
  pose proof (Z.mul_div_le (effective_width bus dw) (csr_data_width bus) Hsup)
    as Hlow.
  pose proof (Z.mul_succ_div_gt (effective_width bus dw) (csr_data_width bus)
                                Hsup) as Hup.
  destruct (wb_default_stall env); cbn [bind ret lookup_name].
  - cbn. split; [discriminate | intros [? _]; discriminate].
  - destruct (Z.leb_spec (effective_width bus dw / csr_data_width bus) 0)
      as [Hle | Hgt]; cbn [bind raise ret raises].
    + split; [discriminate|]. intros [_ Hw]. exfalso. nia.
    + split; [|reflexivity]. intros _. split; [reflexivity|]. nia.
Qed.

Lemma constructed_elaborates_iff_witness :
  raises (elaborate bridge_8_32) = false <->
  wb_stall (wb_bus bridge_8_32) = false /\ 8 <= 32.
Proof.
  exact (constructed_elaborates_iff unchecked
           (CSRInterfaceObj (csr_bus bridge_8_32)) (Some 32) bridge_8_32
           eq_refl ltac:(cbn; lia)).
Defined.

(** X12.  Address translation round trip: for a constructed bridge whose
    CSR address is at least [log2(chunks)] bits wide, in the cycle of chunk
    [k] and for a Wishbone address [a] within its width, the CSR address is
    [a * chunks + k]; dividing it by [chunks] gives back [a] and its
    remainder gives back [k], so different chunks of different words never
    share a CSR address. *)
Theorem chunk_address_roundtrip
        (env : Collaborators) (obj : PyObject) (dw : option Z)
        (self : WishboneCSRBridge) (d : Design) (s : State) (i : Inputs) :
  WishboneCSRBridge_init env obj dw = inr self ->
  elaborate self = inr d ->
  lbits d <= csr_addr_width (csr_bus self) ->
  0 <= cycle s < slen d ->
  0 <= adr i < 2 ^ wb_addr_width (wb_bus self) ->
  addr (comb d s i) = adr i * slen d + cycle s /\
  addr (comb d s i) / slen d = adr i /\
  addr (comb d s i) mod slen d = cycle s.
Proof.
  intros Hinit Helab Hl Hc Hadr.
  pose proof Hinit as Hinit'.
  apply init_inv in Hinit' as (bus0 & l0 & _ & _ & _ & _ & _ & Hself).
  destruct (constructed_design env obj dw self d Hinit Helab)
    as (bus & l & _ & Hbus & _ & _ & Hl0 & _ & ->).
  cbn [lbits slen] in *. rewrite Hbus in Hl.
  assert (Haw : wb_addr_width (wb_bus self) = Z.max 0 (csr_addr_width bus - l)).
  { apply elaborate_inv in Helab as (_ & _ & _ & _ & _ & _ & _ & Hw).
    cbn in Hw. now rewrite <- Hw. }
  rewrite Haw, Z.max_r in Hadr by lia.
  assert (Hpl : 0 < 2 ^ l) by (apply Z.pow_pos_nonneg; lia).
  assert (Hval : addr (comb {| slen := 2 ^ l; lbits := l;
                               granularity := csr_data_width bus;
                               addr_width := csr_addr_width bus;
                               adr_width := Z.max 0 (csr_addr_width bus - l) |}
                            s i)
                 = adr i * 2 ^ l + cycle s).
  { rewrite comb_addr. cbn [lbits addr_width adr_width].
    rewrite Z.max_r by lia. rewrite Cat_value by lia.
    rewrite !Z.mod_small by lia.
    rewrite trunc_small; [lia | lia |].
    replace (2 ^ csr_addr_width bus)
      with (2 ^ l * 2 ^ (csr_addr_width bus - l))
      by (rewrite <- Z.pow_add_r by lia; f_equal; lia).
    nia. }
  rewrite Hval. split; [reflexivity|]. split.
  - rewrite Z.div_add_l by lia. rewrite Z.div_small by lia. lia.
  - rewrite Z.add_comm, Z.mod_add by lia. apply Z.mod_small. lia.
Qed.

Lemma chunk_address_roundtrip_witness :
  let s := {| cycle := 2; ack := false; dat_r := 0 |} in
  addr (comb design_8_32 s (read_all 0)) = 3 * 4 + 2 /\
  addr (comb design_8_32 s (read_all 0)) / 4 = 3 /\
  addr (comb design_8_32 s (read_all 0)) mod 4 = 2.
Proof.
  apply (chunk_address_roundtrip unchecked
           (CSRInterfaceObj (csr_bus bridge_8_32)) (Some 32)
           bridge_8_32 design_8_32
           {| cycle := 2; ack := false; dat_r := 0 |} (read_all 0));
    try reflexivity; cbn; lia.
Defined.

(** X13.  A bridge constructed without [data_width] has one chunk: its
    Wishbone address is as wide as the CSR address and is passed through
    unchanged, cut to that width, in every cycle. *)
Theorem same_width_passthrough
        (env : Collaborators) (bus : CSRInterface)
        (self : WishboneCSRBridge) (d : Design) (s : State) (i : Inputs) :
  WishboneCSRBridge_init env (CSRInterfaceObj bus) None = inr self ->
  elaborate self = inr d ->
  0 <= csr_addr_width bus ->
  slen d = 1 /\
  wb_addr_width (wb_bus self) = csr_addr_width bus /\
  wb_data_width (wb_bus self) = csr_data_width bus /\
  addr (comb d s i) = adr i mod 2 ^ csr_addr_width bus.
Proof.
  intros Hinit Helab Haw.
  destruct (constructed_design env _ None self d Hinit Helab)
    as (bus' & l & [= <-] & Hbus & Hdw & Hpos & Hl0 & Hq & ->).
  cbn [effective_width] in Hq, Hdw.
  rewrite Z.div_same in Hq by lia.
  assert (Hl : l = 0).
  { destruct (Z.eq_dec l 0) as [E | NE]; [exact E|].
    assert (2 ^ 1 <= 2 ^ l) by (apply Z.pow_le_mono_r; lia).
    change (2 ^ 1) with 2 in *. lia. }
  subst l. apply elaborate_inv in Helab as (_ & _ & _ & _ & _ & _ & _ & Hw).
  cbn [adr_width] in Hw. rewrite <- Hw, Z.sub_0_r, Z.max_r by lia.
  split; [reflexivity|]. split; [reflexivity|]. split; [exact Hdw|].
  rewrite comb_addr. cbn [lbits addr_width adr_width].
  rewrite ?Z.sub_0_r, ?Z.max_r by lia.
  rewrite Cat_value by lia. change (2 ^ 0) with 1.
  rewrite Z.mod_1_r, Z.add_0_l, Z.mul_1_l.
  rewrite trunc_mod by lia. apply Z.mod_mod.
  assert (0 < 2 ^ csr_addr_width bus) by (apply Z.pow_pos_nonneg; lia). lia.
Qed.

Lemma same_width_passthrough_witness :
  let s := {| cycle := 1; ack := false; dat_r := 0 |} in
  slen design_8_8 = 1 /\
  wb_addr_width (wb_bus bridge_8_8) = 16 /\
  wb_data_width (wb_bus bridge_8_8) = 8 /\
  addr (comb design_8_8 s (read_all 0)) = 3 mod 2 ^ 16.
Proof.
  apply (same_width_passthrough unchecked (csr_bus bridge_8_8) bridge_8_8
           design_8_8 {| cycle := 1; ack := false; dat_r := 0 |} (read_all 0));
    try reflexivity. cbn. lia.
Defined.

End BridgeConfig.


(** ** Edge cases *)

Module BridgeEdges.
Import Bits BitsFacts Bridge BridgeTransactions.

Lemma strobes_exclusive_witness :
  let s := {| cycle := 2; ack := false; dat_r := 0 |} in
  r_stb (comb design_8_32 s (write_some 2))
    && w_stb (comb design_8_32 s (write_some 2)) = false /\
  w_stb (comb design_8_32 s (write_some 2)) = true /\
  Z.testbit 5 2 = true.
Proof.
  intros s.
  destruct (strobes_exclusive design_8_32 s (write_some 2)) as [Hex Hon].
  destruct (Hon eq_refl) as (_ & _ & _ & Hsel & Hw & _).
  split; [exact Hex|]. split; [exact Hw | exact Hsel].
Defined.

(** X14.  A negative [data_width] never gets through the constructor,
    whatever the interface classes accept: the floored quotient by the CSR
    data width is negative, which [log2_int] refuses. *)
Theorem init_rejects_negative_width
        (env : Collaborators) (bus : CSRInterface) (w : Z) :
  w < 0 ->
  raises (WishboneCSRBridge_init env (CSRInterfaceObj bus) (Some w)) = true.
Proof.
  intros Hw. unfold WishboneCSRBridge_init.
  destruct (supported_width (csr_data_width bus)) eqn:Hs; cbn [negb];
    [|reflexivity].
  apply supported_width_pos in Hs.
  assert (Hq : w / csr_data_width bus < 0)
    by (apply Z.div_lt_upper_bound; lia).
  assert (Hr : raises (log2_int (w / csr_data_width bus)) = true).
  { apply log2_int_raises. split; [lia|].
    intros (k & Hk & E).
    assert (0 < 2 ^ k) by (apply Z.pow_pos_nonneg; lia). lia. }
  destruct (log2_int (w / csr_data_width bus)); [reflexivity | discriminate].
Qed.

Lemma init_rejects_negative_width_witness :
  raises (WishboneCSRBridge_init unchecked
            (CSRInterfaceObj (csr_bus bridge_8_32)) (Some (-32))) = true.
Proof.
  apply (init_rejects_negative_width unchecked (csr_bus bridge_8_32) (-32)).
  lia.
Defined.

End BridgeEdges.
